(** * prom-query: a shallow embedding of the query core

    The development follows the Go packages of the repository:
    [labels] (label sets), [value] (points, series, vectors, matrices),
    [remote] (backend codec, series iterators, reader) and [promql]
    (engine and evaluator), with [api] on top.  Every Go function is a
    Rocq function of the same name; a Go [panic] is the [Panic] outcome
    of the [outcome] type, a returned [error] is an [option error]. *)

From Stdlib Require Import ZArith List String Ascii Bool Lia Permutation.
From Stdlib Require Import Sorted.
Import ListNotations.
Local Open Scope Z_scope.

(** ** Machine integers

    Go's [int64] (and [int] on the 64-bit targets the program is built
    for) is a [Z] together with its two's-complement wrap-around. *)
Module Int64.

Definition min_int : Z := - 2 ^ 63.
Definition max_int : Z := 2 ^ 63 - 1.

Definition in_range (z : Z) : Prop := min_int <= z <= max_int.

Definition wrap (z : Z) : Z := (z + 2 ^ 63) mod 2 ^ 64 - 2 ^ 63.

Definition add (a b : Z) : Z := wrap (a + b).
Definition sub (a b : Z) : Z := wrap (a - b).

(** Go's [/] on integers truncates toward zero; the caller handles
    the zero divisor (a run-time panic). *)
Definition quo (a b : Z) : Z := wrap (Z.quot a b).

End Int64.

(** ** Errors, panics and outcomes *)

Inductive error : Type :=
| ErrQueryTimeout (env : string)
| ErrQueryCanceled (env : string)
| ErrTooManySamples (env : string)
| context_Canceled
| context_DeadlineExceeded
| ErrAllBackendsFailed
| Errorf (msg : string)
| runtime_Error (msg : string).

(** What a Go call can do: return, unwind with a panic value, or keep
    running after the model's fuel is spent. *)
Inductive outcome (A : Type) : Type :=
| Return (a : A)
| Panic (e : error)
| OutOfFuel.

Arguments Return {A} a.
Arguments Panic {A} e.
Arguments OutOfFuel {A}.

Definition bind {A B : Type} (m : outcome A) (k : A -> outcome B) : outcome B :=
  match m with
  | Return a => k a
  | Panic e => Panic e
  | OutOfFuel => OutOfFuel
  end.

Notation "x <- m ;; k" := (bind m (fun x => k))
  (at level 61, m at next level, right associativity).
Notation "' p <- m ;; k" := (bind m (fun x => let p := x in k))
  (at level 61, p pattern, m at next level, right associativity).

(** [sort.Sort] of the Go library, over a [Less] function.  Any sort
    returns an ordered rearrangement of its input; the model is the
    insertion sort the library itself runs on short slices. *)
Module sort.

Section Sort.
Context {A : Type} (Less : A -> A -> bool).

Fixpoint insert (x : A) (l : list A) : list A :=
  match l with
  | [] => [x]
  | y :: l' => if Less x y then x :: l else y :: insert x l'
  end.

Definition Sort (l : list A) : list A :=
  fold_left (fun acc x => insert x acc) l [].
End Sort.

(** [sort.Search]: binary search for the least index in [0, n) at
    which [f] holds, [n] if there is none (for a monotone [f]).  The
    interval [j - i] shrinks at every turn, so [n] turns are enough. *)
Fixpoint search_loop (turns : nat) (i j : Z) (f : Z -> bool) : Z :=
  match turns with
  | O => i
  | S k =>
      if i <? j then
        let h := (i + j) / 2 in
        if negb (f h) then search_loop k (h + 1) j f
        else search_loop k i h f
      else i
  end.

Definition Search (n : Z) (f : Z -> bool) : Z :=
  search_loop (Z.to_nat n) 0 n f.

End sort.

(** ** Package [labels]

    The package is not part of the sources at hand; only its use is. *)
Module labels.

Record Label : Type := { Name : string; Value : string }.

Definition Labels : Type := list Label.

Definition MetricName : string := "__name__".

Definition Label_eqb (a b : Label) : bool :=
  String.eqb (Name a) (Name b) && String.eqb (Value a) (Value b).

(** Modelled from the spec: [labels.Compare] is missing from the
    sources.  The spec (section 3) makes a LabelSet "an ordered,
    by-name-sorted sequence" whose "equality ... [is] defined over the
    full sorted content" and which is "a sort/merge key": the order is
    the lexicographic one on the (name, value) sequence, a proper
    prefix coming first. *)
Fixpoint Compare (a b : Labels) : comparison :=
  match a, b with
  | [], [] => Eq
  | [], _ :: _ => Lt
  | _ :: _, [] => Gt
  | x :: a', y :: b' =>
      match String.compare (Name x) (Name y) with
      | Eq =>
          match String.compare (Value x) (Value y) with
          | Eq => Compare a' b'
          | c => c
          end
      | c => c
      end
  end.

Definition Less (a b : Labels) : bool :=
  match Compare a b with Lt => true | _ => false end.

(** [Labels] as a [sort.Interface]: by name. *)
Definition Labels_Less (a b : Label) : bool :=
  match String.compare (Name a) (Name b) with Lt => true | _ => false end.

(** Modelled from the spec: [labels.New] is missing from the sources.
    It builds the "by-name-sorted sequence" of section 3 from the
    given labels. *)
Definition New (ls : list Label) : Labels :=
  sort.Sort Labels_Less ls.

Definition Labels_eq_dec (a b : Labels) : {a = b} + {a <> b}.
Proof. repeat decide equality. Defined.

End labels.

(** ** Package [value] *)
Module value.

(** A [float64] is carried through the program untouched; the only
    operation the core applies to it is [math.Float64bits].  It is
    modelled by its IEEE-754 bit pattern, an unsigned 64-bit number. *)
Record float64 : Type := Float64frombits { Float64bits : Z }.

Definition NormalNaN : Z := 0x7ff8000000000001.
Definition StaleNaN : Z := 0x7ff0000000000002.

Definition IsStaleNaN (v : float64) : bool :=
  Float64bits v =? StaleNaN.

(** IEEE-754 classification of a bit pattern and the [==] of Go on
    [float64], for comparison with [IsStaleNaN]. *)
Definition exponent_bits (v : float64) : Z :=
  Z.land (Z.shiftr (Float64bits v) 52) 0x7ff.
Definition mantissa_bits (v : float64) : Z :=
  Z.land (Float64bits v) 0xfffffffffffff.
Definition IsNaN (v : float64) : bool :=
  (exponent_bits v =? 0x7ff) && negb (mantissa_bits v =? 0).
Definition is_zero (v : float64) : bool :=
  (exponent_bits v =? 0) && (mantissa_bits v =? 0).
Definition float_eqb (a b : float64) : bool :=
  if IsNaN a || IsNaN b then false
  else if is_zero a && is_zero b then true
  else Float64bits a =? Float64bits b.

Record Point : Type := { T : Z; V : float64 }.

Record Series : Type := { Metric : labels.Labels; Points : list Point }.

(** [Sample] embeds a [Point]. *)
Record Sample : Type := { SamplePoint : Point; SampleMetric : labels.Labels }.

Definition Vector : Type := list Sample.
Definition Matrix : Type := list Series.

Inductive ValueType : Type :=
| ValueTypeNone | ValueTypeVector | ValueTypeScalar
| ValueTypeMatrix | ValueTypeString.

Inductive Value : Type :=
| OfMatrix (m : Matrix)
| OfVector (v : Vector)
| OfScalar (t : Z) (v : float64)
| OfString (t : Z) (s : string).

Definition Type_ (v : Value) : ValueType :=
  match v with
  | OfMatrix _ => ValueTypeMatrix
  | OfVector _ => ValueTypeVector
  | OfScalar _ _ => ValueTypeScalar
  | OfString _ _ => ValueTypeString
  end.

Definition TotalSamples (m : Matrix) : Z :=
  fold_left (fun n s => n + Z.of_nat (List.length (Points s))) m 0.

Section Hashing.
(** [Labels.Hash] belongs to the missing package [labels]; the two
    checks are parametric in it.  The Go map used as a set of hashes
    is the list [l] of the hashes seen. *)
Variable Hash : labels.Labels -> Z.

Fixpoint Vector_ContainsSameLabelset_loop (vec : Vector) (l : list Z) : bool :=
  match vec with
  | [] => false
  | s :: vec' =>
      let hash := Hash (SampleMetric s) in
      if existsb (Z.eqb hash) l then true
      else Vector_ContainsSameLabelset_loop vec' (hash :: l)
  end.

Definition Vector_ContainsSameLabelset (vec : Vector) : bool :=
  Vector_ContainsSameLabelset_loop vec [].

Fixpoint Matrix_ContainsSameLabelset_loop (m : Matrix) (l : list Z) : bool :=
  match m with
  | [] => false
  | ss :: m' =>
      let hash := Hash (Metric ss) in
      if existsb (Z.eqb hash) l then true
      else Matrix_ContainsSameLabelset_loop m' (hash :: l)
  end.

Definition Matrix_ContainsSameLabelset (m : Matrix) : bool :=
  Matrix_ContainsSameLabelset_loop m [].
End Hashing.

(** [Matrix] as a [sort.Interface]: [Less] compares the metrics. *)
Definition Matrix_Less (a b : Series) : bool :=
  labels.Less (Metric a) (Metric b).

Record Result : Type := { Err : option error; Value_ : option Value }.

Definition Result_Vector (r : Result) : Vector * option error :=
  match Err r with
  | Some e => ([], Some e)
  | None =>
      match Value_ r with
      | Some (OfVector v) => (v, None)
      | _ => ([], Some (Errorf "query result is not a Vector"))
      end
  end.

Definition Result_Matrix (r : Result) : Matrix * option error :=
  match Err r with
  | Some e => ([], Some e)
  | None =>
      match Value_ r with
      | Some (OfMatrix m) => (m, None)
      | _ => ([], Some (Errorf "query result is not a range Vector"))
      end
  end.

(** [Result.Scalar]: the zero [Scalar] comes with every error. *)
Definition Result_Scalar (r : Result) : (Z * float64) * option error :=
  match Err r with
  | Some e => ((0, Float64frombits 0), Some e)
  | None =>
      match Value_ r with
      | Some (OfScalar t v) => ((t, v), None)
      | _ => ((0, Float64frombits 0), Some (Errorf "query result is not a Scalar"))
      end
  end.

End value.

(** A Go result pair [(x, err)]: either the value or the error. *)
Inductive result (A : Type) : Type :=
| OK (a : A)
| Fail (err : error).

Arguments OK {A} a.
Arguments Fail {A} err.

(** ** Package [prompb]: the sample type used by the codec *)
Module prompb.
Record Sample : Type := { Value : value.float64; Timestamp : Z }.
(** The zero value of the struct, as [make] fills a slice with. *)
Definition zero : Sample :=
  {| Value := value.Float64frombits 0; Timestamp := 0 |}.
End prompb.

(** ** The validity predicates of the Prometheus [model] library

    [model.IsValidMetricName], [model.LabelName.IsValid] and
    [model.LabelValue.IsValid] belong to an external library; the codec
    is parametric in them. *)
Module model.

Class Validation : Type := {
  IsValidMetricName : string -> bool;
  LabelName_IsValid : string -> bool;
  LabelValue_IsValid : string -> bool
}.

(** The classic rules, for examples: names are made of letters,
    digits and underscores (metric names also of colons) and do not
    start with a digit; every value is accepted. *)
Definition is_alpha (c : ascii) : bool :=
  let n := nat_of_ascii c in
  ((97 <=? n) && (n <=? 122) || (65 <=? n) && (n <=? 90) || (n =? 95))%nat.
Definition is_digit (c : ascii) : bool :=
  let n := nat_of_ascii c in ((48 <=? n) && (n <=? 57))%nat.
Definition is_colon (c : ascii) : bool := (nat_of_ascii c =? 58)%nat.

Fixpoint all_chars (p : ascii -> bool) (s : string) : bool :=
  match s with
  | EmptyString => true
  | String c s' => p c && all_chars p s'
  end.

Definition classic_name (extra : ascii -> bool) (s : string) : bool :=
  match s with
  | EmptyString => false
  | String c s' =>
      (is_alpha c || extra c)
      && all_chars (fun d => is_alpha d || is_digit d || extra d) s'
  end.

Definition classic : Validation := {|
  IsValidMetricName := classic_name is_colon;
  LabelName_IsValid := classic_name (fun _ => false);
  LabelValue_IsValid := fun _ => true
|}.

End model.

(** ** Package [remote]: codec, series sets and iterators *)
Module remote.

(** *** interface.go *)

Record SelectParams : Type :=
  { Query : string; Start : Z; End_ : Z; Step : Z }.

(** *** client.go: what a backend answers

    The HTTP round trip and the JSON decoding are outside the core
    (spec, section 1); a [Client] is the function from a request to
    the decoded response, or to the transport error. *)

Record InstantQueryData : Type :=
  { InstantResultType : string; InstantResult : option value.Vector }.
Record InstantQueryResult : Type :=
  { InstantData : option InstantQueryData; InstantStatus : string }.

Record RangeQueryData : Type :=
  { RangeResultType : string; RangeResult : option value.Matrix }.
Record RangeQueryResult : Type :=
  { RangeData : option RangeQueryData; RangeStatus : string }.

Record Client : Type := {
  QueryInstant : string -> Z -> result InstantQueryResult;
  QueryRange : string -> Z -> Z -> Z -> result RangeQueryResult
}.

(** *** codec.go *)

Record concreteSeries : Type :=
  { labels : labels.Labels; samples : list prompb.Sample }.

(** The only implementation of the [Series] interface in the sources. *)
Abbreviation Series := concreteSeries (only parsing).

Definition Labels (c : concreteSeries) : labels.Labels :=
  labels.New (labels c).

Inductive SeriesSet : Type :=
| nilSeriesSet
| errSeriesSet (err : error)
| concreteSeriesSet (cur : Z) (series : list Series).

Definition byLabel_Less (a b : Series) : bool :=
  labels.Less (Labels a) (Labels b).

Section Codec.
Context {validation : model.Validation}.

Fixpoint validateLabelsAndMetricName (ls : labels.Labels) : option error :=
  match ls with
  | [] => None
  | l :: ls' =>
      if String.eqb (labels.Name l) labels.MetricName
         && negb (model.IsValidMetricName (labels.Value l))
      then Some (Errorf ("Invalid metric name: " ++ labels.Value l))
      else if negb (model.LabelName_IsValid (labels.Name l))
      then Some (Errorf ("Invalid label name: " ++ labels.Name l))
      else if negb (model.LabelValue_IsValid (labels.Value l))
      then Some (Errorf ("Invalid label value: " ++ labels.Value l))
      else validateLabelsAndMetricName ls'
  end.

(** The loop of [FromInstantQueryResult] over the vector: [series]
    is the slice built so far; a validation error leaves the loop
    and the function. *)
Fixpoint instant_loop (v : value.Vector) (series : list Series)
  : result (list Series) :=
  match v with
  | [] => OK series
  | s :: v' =>
      let labels := value.SampleMetric s in
      match validateLabelsAndMetricName labels with
      | Some err => Fail err
      | None =>
          let sample :=
            {| prompb.Value := value.V (value.SamplePoint s);
               prompb.Timestamp := value.T (value.SamplePoint s) |} in
          instant_loop v'
            (series ++ [ {| labels := labels; samples := [sample] |} ])
      end
  end.

Definition FromInstantQueryResult (res : InstantQueryResult) : SeriesSet :=
  if negb (String.eqb (InstantStatus res) "success") then nilSeriesSet
  else
    match InstantData res with
    | None => nilSeriesSet
    | Some data =>
        match InstantResult data with
        | None => nilSeriesSet
        | Some v =>
            match instant_loop v [] with
            | Fail err => errSeriesSet err
            | OK series => concreteSeriesSet 0 (sort.Sort byLabel_Less series)
            end
        end
    end.

(** [samples := make([]prompb.Sample, len(s.Points))] followed by
    [append] in the loop over the points: the slice starts with
    [len(s.Points)] zero samples and the points come after them. *)
Definition range_samples (pts : list value.Point) : list prompb.Sample :=
  fold_left
    (fun samples pt =>
       samples ++ [ {| prompb.Value := value.V pt;
                       prompb.Timestamp := value.T pt |} ])
    pts
    (repeat prompb.zero (List.length pts)).

Fixpoint range_loop (v : value.Matrix) (series : list Series)
  : result (list Series) :=
  match v with
  | [] => OK series
  | s :: v' =>
      let labels := value.Metric s in
      match validateLabelsAndMetricName labels with
      | Some err => Fail err
      | None =>
          let samples := range_samples (value.Points s) in
          range_loop v'
            (series ++ [ {| labels := labels; samples := samples |} ])
      end
  end.

Definition FromRangeQueryResult (res : RangeQueryResult) : SeriesSet :=
  if negb (String.eqb (RangeStatus res) "success") then nilSeriesSet
  else
    match RangeData res with
    | None => nilSeriesSet
    | Some data =>
        match RangeResult data with
        | None => nilSeriesSet
        | Some v =>
            match range_loop v [] with
            | Fail err => errSeriesSet err
            | OK series => concreteSeriesSet 0 (sort.Sort byLabel_Less series)
            end
        end
    end.
End Codec.

Definition nil_dereference : error :=
  runtime_Error "invalid memory address or nil pointer dereference".
Definition index_out_of_range : error :=
  runtime_Error "index out of range".

(** [Next], [At] and [Err] of the three series sets.  A method call on
    the nil interface value panics. *)
Definition SeriesSet_Next (s : SeriesSet) : outcome (bool * SeriesSet) :=
  match s with
  | nilSeriesSet => Panic nil_dereference
  | errSeriesSet _ => Return (false, s)
  | concreteSeriesSet cur series =>
      let cur := cur + 1 in
      Return (cur - 1 <? Z.of_nat (List.length series),
              concreteSeriesSet cur series)
  end.

Definition SeriesSet_At (s : SeriesSet) : outcome (option Series) :=
  match s with
  | nilSeriesSet => Panic nil_dereference
  | errSeriesSet _ => Return None
  | concreteSeriesSet cur series =>
      if (0 <=? cur - 1) && (cur - 1 <? Z.of_nat (List.length series))
      then Return (nth_error series (Z.to_nat (cur - 1)))
      else Panic index_out_of_range
  end.

Definition SeriesSet_Err (s : SeriesSet) : outcome (option error) :=
  match s with
  | nilSeriesSet => Panic nil_dereference
  | errSeriesSet err => Return (Some err)
  | concreteSeriesSet _ _ => Return None
  end.

(** *** concreteSeriesIterator *)

Record concreteSeriesIterator : Type :=
  { cur : Z; series : concreteSeries }.

Definition newConcreteSeriersIterator (s : concreteSeries)
  : concreteSeriesIterator :=
  {| cur := -1; series := s |}.

Definition Iterator (c : concreteSeries) : concreteSeriesIterator :=
  newConcreteSeriersIterator c.

Definition len_samples (c : concreteSeriesIterator) : Z :=
  Z.of_nat (List.length (samples (series c))).

Definition sample_at (c : concreteSeriesIterator) (n : Z) : prompb.Sample :=
  nth (Z.to_nat n) (samples (series c)) prompb.zero.

Definition concrete_Seek (t : Z) (c : concreteSeriesIterator)
  : bool * concreteSeriesIterator :=
  let cur :=
    sort.Search (len_samples c)
      (fun n => prompb.Timestamp (sample_at c n) >=? t) in
  (cur <? len_samples c, {| cur := cur; series := series c |}).

Definition concrete_At (c : concreteSeriesIterator) : outcome prompb.Sample :=
  if (0 <=? cur c) && (cur c <? len_samples c)
  then Return (sample_at c (cur c))
  else Panic index_out_of_range.

Definition concrete_Next (c : concreteSeriesIterator)
  : bool * concreteSeriesIterator :=
  let cur := cur c + 1 in
  (cur <? len_samples c, {| cur := cur; series := series c |}).

Definition concrete_Err (c : concreteSeriesIterator) : option error := None.

(** *** The buffered iterator

    Modelled from the spec: [remote.NewBuffer] and the methods of
    [BufferedSeriesIterator] are missing from the sources.  Section
    4.2 of the spec gives their contract: [Reset] "rebinds to a new
    source and clears buffered history"; [Seek t] "advances the
    underlying iterator to the first sample with timestamp >= t;
    returns whether found; remembers traversed samples for backward
    lookup"; [Values] "returns (timestamp, value) at the iterator's
    current position"; [PeekBack n] "returns the n-th most recent
    sample strictly before the current position, or not found if fewer
    than n samples have been buffered"; [Err] "surfaces any error
    encountered by the underlying source".  The wrapper drives the
    raw iterator through [Next] and [At] only.  The spec gives no
    eviction rule for the window [delta]; the buffer keeps every
    traversed sample, most recent first. *)

Record BufferedSeriesIterator : Type :=
  { it : concreteSeriesIterator; buf : list prompb.Sample; delta : Z }.

Definition NewBuffer (delta : Z) : BufferedSeriesIterator :=
  {| it := Iterator {| labels := []; samples := [] |};
     buf := [];
     delta := delta |}.

Definition Reset (rawIterator : concreteSeriesIterator)
  (b : BufferedSeriesIterator) : BufferedSeriesIterator :=
  {| it := rawIterator; buf := []; delta := delta b |}.

Definition positioned (c : concreteSeriesIterator) : bool :=
  (0 <=? cur c) && (cur c <? len_samples c).

(** The sample under the cursor, if any, joins the buffer when the
    cursor leaves it. *)
Definition remember (b : BufferedSeriesIterator) : outcome BufferedSeriesIterator :=
  if positioned (it b) then
    s <- concrete_At (it b) ;;
    Return {| it := it b; buf := s :: buf b; delta := delta b |}
  else Return b.

Fixpoint seek_loop (turns : nat) (t : Z) (b : BufferedSeriesIterator)
  : outcome (bool * BufferedSeriesIterator) :=
  match turns with
  | O => OutOfFuel
  | S k =>
      b1 <- remember b ;;
      let (ok, it') := concrete_Next (it b1) in
      let b2 := {| it := it'; buf := buf b1; delta := delta b1 |} in
      if ok then
        s <- concrete_At it' ;;
        if prompb.Timestamp s >=? t then Return (true, b2)
        else seek_loop k t b2
      else Return (false, b2)
  end.

(** One turn per sample left, and one to find the end. *)
Definition seek_turns (b : BufferedSeriesIterator) : nat :=
  S (List.length (samples (series (it b)))).

Definition Seek (t : Z) (b : BufferedSeriesIterator)
  : outcome (bool * BufferedSeriesIterator) :=
  if positioned (it b) then
    s <- concrete_At (it b) ;;
    if prompb.Timestamp s >=? t then Return (true, b)
    else seek_loop (seek_turns b) t b
  else seek_loop (seek_turns b) t b.

Definition Values (b : BufferedSeriesIterator) : outcome (Z * value.float64) :=
  s <- concrete_At (it b) ;;
  Return (prompb.Timestamp s, prompb.Value s).

Definition PeekBack (n : Z) (b : BufferedSeriesIterator)
  : option (Z * value.float64) :=
  if 1 <=? n then
    match nth_error (buf b) (Z.to_nat (n - 1)) with
    | Some s => Some (prompb.Timestamp s, prompb.Value s)
    | None => None
    end
  else None.

Definition Err (b : BufferedSeriesIterator) : option error :=
  concrete_Err (it b).

(** *** reader.go *)

Record Querier : Type := { Select : SelectParams -> result SeriesSet }.

(** A [Queryable] is what its [Querier(ctx)] returns. *)
Definition Queryable : Type := result Querier.

Section Reader.
Context {validation : model.Validation}.

Definition querier_Select (client : Client) (p : SelectParams)
  : result SeriesSet :=
  if Step p =? 0 then
    match QueryInstant client (Query p) (Start p) with
    | Fail err => Fail err
    | OK res => OK (FromInstantQueryResult res)
    end
  else
    match QueryRange client (Query p) (Start p) (End_ p) (Step p) with
    | Fail err => Fail err
    | OK res => OK (FromRangeQueryResult res)
    end.

Definition QueryableClient (c : Client) : Queryable :=
  OK {| Select := querier_Select c |}.

(** *** The merge layer

    Modelled from the spec: [NewMergeQuerier] is missing from the
    sources.  Section 4.3: the same [SelectParams] goes to every
    backend; "if a subset of backends fails to respond
    (transport/validation error), the merge proceeds using the
    surviving backends' data; the overall call fails only if all
    configured backends failed".  "For each distinct LabelSet
    observed across all responses: if it appears in exactly one
    backend, pass its Series through unchanged; if it appears in 2+
    backends ... construct one merged Series", probing the backends
    "in the fixed priority order they were configured in".  "The
    merged set is emitted sorted by LabelSet."  How the points of
    the contributing series combine is left to [mergeSamples]. *)
Variable mergeSamples : list (list prompb.Sample) -> list prompb.Sample.

Definition surviving (answers : list (result SeriesSet)) : list (list Series) :=
  flat_map
    (fun a =>
       match a with
       | OK (concreteSeriesSet cur series) => [skipn (Z.to_nat cur) series]
       | _ => []
       end)
    answers.

Definition identities (backends : list (list Series)) : list labels.Labels :=
  sort.Sort labels.Less
    (nodup labels.Labels_eq_dec (map Labels (List.concat backends))).

Definition same_identity (k : labels.Labels) (s : Series) : bool :=
  if labels.Labels_eq_dec (Labels s) k then true else false.

Definition contributors (k : labels.Labels) (backends : list (list Series))
  : list Series :=
  flat_map
    (fun b => match find (same_identity k) b with
              | Some s => [s]
              | None => []
              end)
    backends.

Definition mergeSeries (k : labels.Labels) (backends : list (list Series))
  : list Series :=
  match contributors k backends with
  | [] => []
  | [s] => [s]
  | s :: _ as cs =>
      [ {| labels := labels s; samples := mergeSamples (map samples cs) |} ]
  end.

Definition merged (backends : list (list Series)) : list Series :=
  flat_map (fun k => mergeSeries k backends) (identities backends).

Definition mergeQuerier_Select (queriers : list Querier) (p : SelectParams)
  : result SeriesSet :=
  match surviving (map (fun q => Select q p) queriers) with
  | [] => Fail ErrAllBackendsFailed
  | backends => OK (concreteSeriesSet 0 (merged backends))
  end.

Definition NewMergeQuerier (queriers : list Querier) : Querier :=
  {| Select := mergeQuerier_Select queriers |}.

Record Reader : Type := { queryables : list Queryable }.

(** [NewReader]: one client per configured backend, in the
    configured order. *)
Definition NewReader (clients : list Client) : Reader :=
  {| queryables := map QueryableClient clients |}.

Fixpoint queriers_of (queryables : list Queryable) (queriers : list Querier)
  : result (list Querier) :=
  match queryables with
  | [] => OK queriers
  | queryable :: rest =>
      match queryable with
      | Fail err => Fail err
      | OK q => queriers_of rest (queriers ++ [q])
      end
  end.

Definition Reader_Querier (s : Reader) : result Querier :=
  match queriers_of (queryables s) [] with
  | Fail err => Fail err
  | OK queriers => OK (NewMergeQuerier queriers)
  end.
End Reader.

End remote.

(** ** Package [promql]: engine and evaluator *)
Module promql.

(** [time.Duration] counts nanoseconds in an [int64]. *)
Definition Nanosecond : Z := 1.
Definition Second : Z := 1000000000 * Nanosecond.
Definition Minute : Z := 60 * Second.

Definition DefaultLookbackDelta : Z := 5 * Minute.

Definition durationSeconds (d : Z) : Z :=
  Int64.quo d (Int64.quo Second Nanosecond).

(** What the query's [context.Context] reports ([ctx.Err()], [None]
    while it is not done) at the points where the engine looks at it:
    while the query waits for the gate, while the series set is
    expanded, and once the evaluation is over. *)
Inductive phase : Type := Queued | Fetching | Evaluated.

Definition Context : Type := phase -> option error.

Definition Background : Context := fun _ => None.

Definition contextErr (err : error) (env : string) : error :=
  match err with
  | context_Canceled => ErrQueryCanceled env
  | context_DeadlineExceeded => ErrQueryTimeout env
  | _ => err
  end.

Definition contextDone (ctx : Context) (env : string) : option error :=
  match ctx Evaluated with
  | Some err => Some (contextErr err env)
  | None => None
  end.

(** Modelled from the spec: package [gate] is missing from the
    sources.  Section 4.1: [Start] returns once a slot is free "or
    until ctx is canceled/expires first"; it then fails with the
    context's error. *)
Definition gate_Start (ctx : Context) : option error := ctx Queued.

Record Engine : Type :=
  { timeout : Z; gate : Z; maxSamplesPerQuery : Z }.

Record EngineOpts : Type :=
  { MaxConcurrent : Z; MaxSamples : Z; Timeout : Z }.

Definition NewEngine (opts : EngineOpts) : Engine :=
  {| gate := MaxConcurrent opts;
     timeout := Timeout opts;
     maxSamplesPerQuery := MaxSamples opts |}.

Record query : Type := {
  queryable : remote.Queryable;
  params : remote.SelectParams;
  ng : Engine
}.

Definition NewQuery (ng : Engine) (q : remote.Queryable) (qs : string)
  (startTs endTs step : Z) : query :=
  {| queryable := q;
     params := {| remote.Query := qs;
                  remote.Start := startTs;
                  remote.End_ := endTs;
                  remote.Step := step |};
     ng := ng |}.

(** [expandSeriesSet]: one turn of the loop per series and one for
    the [Next] that ends it. *)
Fixpoint expand_loop (turns : nat) (ctx : Context) (it : remote.SeriesSet)
  (res : list remote.Series) : outcome (result (list remote.Series)) :=
  match turns with
  | O => OutOfFuel
  | S k =>
      '(more, it) <- remote.SeriesSet_Next it ;;
      if more then
        match ctx Fetching with
        | Some err => Return (Fail err)
        | None =>
            s <- remote.SeriesSet_At it ;;
            match s with
            | Some s => expand_loop k ctx it (res ++ [s])
            | None => Panic remote.nil_dereference
            end
        end
      else
        err <- remote.SeriesSet_Err it ;;
        match err with
        | Some err => Return (Fail err)
        | None => Return (OK res)
        end
  end.

Definition expand_turns (it : remote.SeriesSet) : nat :=
  match it with
  | remote.concreteSeriesSet _ series => S (List.length series)
  | _ => 1%nat
  end.

Definition expandSeriesSet (ctx : Context) (it : remote.SeriesSet)
  : outcome (result (list remote.Series)) :=
  expand_loop (expand_turns it) ctx it [].

Definition populateSeries (ctx : Context) (q : remote.Queryable)
  (params : remote.SelectParams) : outcome (result (list remote.Series)) :=
  match q with
  | Fail err => Return (Fail err)
  | OK queries =>
      match remote.Select queries params with
      | Fail err => Return (Fail err)
      | OK set => expandSeriesSet ctx set
      end
  end.

(** [getPointSlice]: [pool] counts the recycled slices [pointPool]
    hands out; each is empty ([p[:0]]).  With none left the slice is
    made anew, and [make] panics on a negative capacity.  Memory is
    unbounded in the model. *)
Definition getPointSlice (pool : nat) (sz : Z)
  : outcome (list value.Point * nat) :=
  match pool with
  | S pool' => Return ([], pool')
  | O =>
      if sz <? 0 then Panic (runtime_Error "makeslice: cap out of range")
      else Return ([], O)
  end.

Record evaluator : Type := {
  startTimestamp : Z;
  endTimestamp : Z;
  interval : Z;
  maxSamples : Z;
  currentSamples : Z
}.

Definition count_sample (ev : evaluator) : evaluator :=
  {| startTimestamp := startTimestamp ev;
     endTimestamp := endTimestamp ev;
     interval := interval ev;
     maxSamples := maxSamples ev;
     currentSamples := currentSamples ev + 1 |}.

Section Evaluator.
(** The package variable [LookbackDelta], a [time.Duration]. *)
Variable LookbackDelta : Z.

Definition vectorSelectorSingle (it : remote.BufferedSeriesIterator) (ts : Z)
  : outcome (Z * value.float64 * bool * remote.BufferedSeriesIterator) :=
  let refTime := ts in
  let zero := value.Float64frombits 0 in
  let checked t v it :=
    if value.IsStaleNaN v then Return (0, zero, false, it)
    else Return (t, v, true, it) in
  '(ok, it) <- remote.Seek refTime it ;;
  _ <- (if negb ok then
          match remote.Err it with
          | Some err => Panic err
          | None => Return tt
          end
        else Return tt) ;;
  '(t, v) <- (if ok then remote.Values it else Return (0, zero)) ;;
  if negb ok || (t >? refTime) then
    match remote.PeekBack 1 it with
    | None => Return (0, zero, false, it)
    | Some (t, v) =>
        if t <? Int64.sub refTime (durationSeconds LookbackDelta)
        then Return (0, zero, false, it)
        else checked t v it
    end
  else checked t v it.

(** The loop over the grid of one series,
    [for ts := ev.startTimestamp; ts <= ev.endTimestamp; ts += ev.interval]. *)
Fixpoint eval_steps (fuel : nat) (ev : evaluator)
  (it : remote.BufferedSeriesIterator) (ts : Z) (points : list value.Point)
  : outcome (list value.Point * remote.BufferedSeriesIterator * evaluator) :=
  match fuel with
  | O => OutOfFuel
  | S k =>
      if ts <=? endTimestamp ev then
        '(_, v, ok, it) <- vectorSelectorSingle it ts ;;
        if ok then
          if currentSamples ev <? maxSamples ev then
            eval_steps k (count_sample ev) it (Int64.add ts (interval ev))
              (points ++ [ {| value.V := v; value.T := ts |} ])
          else Panic (ErrTooManySamples "query execution")
        else eval_steps k ev it (Int64.add ts (interval ev)) points
      else Return (points, it, ev)
  end.

(** The loop over the series. *)
Fixpoint eval_series (fuel : nat) (ev : evaluator)
  (it : remote.BufferedSeriesIterator) (pool : nat) (numSteps : Z)
  (series : list remote.Series) (mat : value.Matrix)
  : outcome (value.Matrix * evaluator) :=
  match series with
  | [] => Return (mat, ev)
  | s :: series' =>
      let it := remote.Reset (remote.Iterator s) it in
      '(points, pool) <- getPointSlice pool numSteps ;;
      '(points, it, ev) <- eval_steps fuel ev it (startTimestamp ev) points ;;
      let ss := {| value.Metric := remote.Labels s; value.Points := points |} in
      let mat := if (0 <? List.length points)%nat then mat ++ [ss] else mat in
      eval_series fuel ev it pool numSteps series' mat
  end.

Definition eval_from (fuel : nat) (pool : nat) (ev : evaluator)
  (series : list remote.Series) : outcome (value.Matrix * evaluator) :=
  if interval ev =? 0 then Panic (runtime_Error "integer divide by zero")
  else
    let numSteps :=
      Int64.add
        (Int64.quo (Int64.sub (endTimestamp ev) (startTimestamp ev))
           (interval ev))
        1 in
    let it := remote.NewBuffer (durationSeconds LookbackDelta) in
    eval_series fuel ev it pool numSteps series [].

Definition eval (fuel : nat) (pool : nat) (ev : evaluator)
  (series : list remote.Series) : outcome value.Value :=
  '(mat, _) <- eval_from fuel pool ev series ;;
  Return (value.OfMatrix mat).

(** The conversion of a one-point-per-series matrix to a vector in
    [exec]; [s.Points[0]] panics on an empty slice. *)
Fixpoint to_vector (mat : value.Matrix) (start : Z) : outcome value.Vector :=
  match mat with
  | [] => Return []
  | s :: mat' =>
      match value.Points s with
      | [] => Panic remote.index_out_of_range
      | p :: _ =>
          vector <- to_vector mat' start ;;
          Return ({| value.SampleMetric := value.Metric s;
                     value.SamplePoint :=
                       {| value.V := value.V p; value.T := start |} |}
                    :: vector)
      end
  end.

Definition invalid_expression_type : error :=
  Errorf "promql.Engine.exec: invalid expression type".

(** [exec].  Nothing recovers a panic of [eval]: it unwinds through
    [exec] (running the deferred [gate.Done]) and through [Exec].  The
    assignments [q.matrix = mat] only serve [Close]; the test
    [if err != nil] after the range evaluation reads the [err] of
    [populateSeries], which is nil there. *)
Definition exec (fuel : nat) (pool : nat) (ctx : Context) (q : query)
  : outcome (option value.Value * option error) :=
  match gate_Start ctx with
  | Some err => Return (None, Some (contextErr err "query queue"))
  | None =>
      series <- populateSeries ctx (queryable q) (params q) ;;
      match series with
      | Fail err => Return (None, Some err)
      | OK series =>
          if (remote.Start (params q) =? remote.End_ (params q))
             && (remote.Step (params q) =? 0)
          then
            let start := remote.Start (params q) in
            let evaluator :=
              {| startTimestamp := start;
                 endTimestamp := start;
                 interval := 1;
                 maxSamples := maxSamplesPerQuery (ng q);
                 currentSamples := 0 |} in
            val <- eval fuel pool evaluator series ;;
            match val with
            | value.OfMatrix mat =>
                vector <- to_vector mat start ;;
                Return (Some (value.OfVector vector), None)
            | _ => Panic invalid_expression_type
            end
          else
            let evaluator :=
              {| startTimestamp := remote.Start (params q);
                 endTimestamp := remote.End_ (params q);
                 interval := remote.Step (params q);
                 maxSamples := maxSamplesPerQuery (ng q);
                 currentSamples := 0 |} in
            val <- eval fuel pool evaluator series ;;
            match val with
            | value.OfMatrix mat =>
                match contextDone ctx "expression evaluation" with
                | Some err => Return (None, Some err)
                | None =>
                    Return (Some (value.OfMatrix
                                    (sort.Sort value.Matrix_Less mat)),
                            None)
                end
            | _ => Panic invalid_expression_type
            end
      end
  end.

Definition Exec (fuel : nat) (pool : nat) (ctx : Context) (q : query)
  : outcome value.Result :=
  '(res, err) <- exec fuel pool ctx q ;;
  Return {| value.Err := err; value.Value_ := res |}.
End Evaluator.

End promql.

(** ** Package [api]: the public operations *)
Module api.

Definition DefaultQueryMaxConcurrency : Z := 20.
Definition DefaultQueryMaxSamples : Z := 50000000.
Definition DefaultQueryTimeout : Z := 2 * promql.Minute.

Record QueryData : Type :=
  { ResultType : value.ValueType; Result : value.Value }.
Record QueryResult : Type :=
  { Data : QueryData; Status : string }.

(** The two package variables set by [Init]. *)
Record handles : Type :=
  { queryEngine : promql.Engine; remoteReader : remote.Reader }.

Section Api.
Context {validation : model.Validation}.
Variable mergeSamples : list (list prompb.Sample) -> list prompb.Sample.
Variable LookbackDelta : Z.

(** [Init], from the clients the configured URLs stand for. *)
Definition Init (clients : list remote.Client) : handles :=
  {| queryEngine :=
       promql.NewEngine
         {| promql.MaxConcurrent := DefaultQueryMaxConcurrency;
            promql.MaxSamples := DefaultQueryMaxSamples;
            promql.Timeout := DefaultQueryTimeout |};
     remoteReader := remote.NewReader clients |}.

Definition respond (res : value.Result) : outcome (result QueryResult) :=
  match value.Err res with
  | Some err => Return (Fail err)
  | None =>
      match value.Value_ res with
      | Some v =>
          Return (OK {| Data := {| ResultType := value.Type_ v; Result := v |};
                        Status := "success" |})
      | None => Panic remote.nil_dereference
      end
  end.

(** [Query]; [now] is [time.Now().Unix()] and [ctx] the context
    made by [context.WithTimeout]. *)
Definition Query (fuel pool : nat) (ctx : promql.Context) (h : handles)
  (now : Z) (query : string) : outcome (result QueryResult) :=
  let ts := now in
  let qry :=
    promql.NewQuery (queryEngine h)
      (remote.Reader_Querier mergeSamples (remoteReader h)) query ts ts 0 in
  res <- promql.Exec LookbackDelta fuel pool ctx qry ;;
  respond res.

Definition QueryRange (fuel pool : nat) (ctx : promql.Context) (h : handles)
  (query : string) (startTs endTs step : Z) : outcome (result QueryResult) :=
  let qry :=
    promql.NewQuery (queryEngine h)
      (remote.Reader_Querier mergeSamples (remoteReader h))
      query startTs endTs step in
  res <- promql.Exec LookbackDelta fuel pool ctx qry ;;
  respond res.
End Api.

End api.

(** ** Inputs used in the examples *)
Module Fixtures.

Local Open Scope string_scope.

(** The bit patterns of [1.0] and [2.0], and the stale marker. *)
Definition one : value.float64 := value.Float64frombits 0x3ff0000000000000.
Definition two : value.float64 := value.Float64frombits 0x4000000000000000.
Definition stale : value.float64 := value.Float64frombits value.StaleNaN.

Definition up : labels.Labels :=
  [ {| labels.Name := "__name__"; labels.Value := "up" |};
    {| labels.Name := "job"; labels.Value := "x" |} ].

Definition down : labels.Labels :=
  [ {| labels.Name := "__name__"; labels.Value := "down" |};
    {| labels.Name := "job"; labels.Value := "x" |} ].

(** A label name with a dash is not a valid label name. *)
Definition bad : labels.Labels :=
  [ {| labels.Name := "bad-name"; labels.Value := "y" |} ].

Definition sample_of (m : labels.Labels) (t : Z) (v : value.float64)
  : value.Sample :=
  {| value.SamplePoint := {| value.T := t; value.V := v |};
     value.SampleMetric := m |}.

Definition series_of (m : labels.Labels) (l : list (Z * value.float64))
  : remote.concreteSeries :=
  {| remote.labels := m;
     remote.samples :=
       map (fun p => {| prompb.Value := snd p; prompb.Timestamp := fst p |}) l |}.

(** A backend that answers every instant query with [v] and every
    range query with [m]. *)
Definition backend (v : value.Vector) (m : value.Matrix) : remote.Client :=
  {| remote.QueryInstant := fun _ _ =>
       OK {| remote.InstantData :=
               Some {| remote.InstantResultType := "vector";
                       remote.InstantResult := Some v |};
             remote.InstantStatus := "success" |};
     remote.QueryRange := fun _ _ _ _ =>
       OK {| remote.RangeData :=
               Some {| remote.RangeResultType := "matrix";
                       remote.RangeResult := Some m |};
             remote.RangeStatus := "success" |} |}.

(** Earlier-configured backend wins. *)
Definition first_wins (l : list (list prompb.Sample)) : list prompb.Sample :=
  hd [] l.

(** A buffer freshly reset to the iterator of a series, as [eval]
    does for each series. *)
Definition fresh (delta : Z) (s : remote.concreteSeries)
  : remote.BufferedSeriesIterator :=
  remote.Reset (remote.Iterator s)
    (remote.NewBuffer (promql.durationSeconds delta)).

(** The public handles over the given backends, with the classic
    validity rules. *)
Definition handles_of (clients : list remote.Client) : api.handles :=
  @api.Init model.classic clients.

Definition Query := api.Query first_wins promql.DefaultLookbackDelta.
Definition QueryRange := api.QueryRange first_wins promql.DefaultLookbackDelta.

(** An engine with a budget of [n] samples over the given backends. *)
Definition query_with_budget (n : Z) (clients : list remote.Client)
  (startTs endTs step : Z) : promql.query :=
  promql.NewQuery
    (promql.NewEngine {| promql.MaxConcurrent := 20;
                         promql.MaxSamples := n;
                         promql.Timeout := api.DefaultQueryTimeout |})
    (remote.Reader_Querier first_wins (@remote.NewReader model.classic clients))
    "up" startTs endTs step.

Definition vector_result (v : value.Vector) : api.QueryResult :=
  {| api.Data := {| api.ResultType := value.ValueTypeVector;
                    api.Result := value.OfVector v |};
     api.Status := "success" |}.

Definition matrix_result (m : value.Matrix) : api.QueryResult :=
  {| api.Data := {| api.ResultType := value.ValueTypeMatrix;
                    api.Result := value.OfMatrix m |};
     api.Status := "success" |}.

End Fixtures.

(** ** Notions used in the statements *)

(** The buffer of a wrapper holds the samples before the cursor, the
    most recent first. *)
Definition buffered_prefix (b : remote.BufferedSeriesIterator) : Prop :=
  -1 <= remote.cur (remote.it b)
  /\ remote.buf b
     = rev (firstn (Z.to_nat (remote.cur (remote.it b)))
              (remote.samples (remote.series (remote.it b)))).

(** Where a [Seek t] from [b] stops at [b1]: on the first sample at or
    after the cursor whose timestamp is at least [t], or past the end. *)
Definition seeks_to (t : Z) (b : remote.BufferedSeriesIterator) (ok : bool)
  (b1 : remote.BufferedSeriesIterator) : Prop :=
  let c := remote.it b in
  let c1 := remote.it b1 in
  buffered_prefix b1
  /\ remote.series c1 = remote.series c
  /\ remote.delta b1 = remote.delta b
  /\ remote.cur c <= remote.cur c1
  /\ (forall i, 0 <= i -> remote.cur c <= i < remote.cur c1 ->
                i < remote.len_samples c ->
                prompb.Timestamp (remote.sample_at c i) < t)
  /\ (if ok
      then remote.positioned c1 = true
           /\ t <= prompb.Timestamp (remote.sample_at c1 (remote.cur c1))
      else remote.len_samples c <= remote.cur c1).

(** The last steps of the sampling rule: a sample found is returned
    unless it carries the stale marker. *)
Definition checked (t : Z) (v : value.float64) (it : remote.BufferedSeriesIterator)
  : outcome (Z * value.float64 * bool * remote.BufferedSeriesIterator) :=
  if value.IsStaleNaN v then Return (0, value.Float64frombits 0, false, it)
  else Return (t, v, true, it).

(** The fallback of the sampling rule at [T]: the most recent sample
    before the cursor, if its timestamp is at least [T] minus the
    lookback window. *)
Definition fall_back (LookbackDelta T : Z) (it : remote.BufferedSeriesIterator)
  : outcome (Z * value.float64 * bool * remote.BufferedSeriesIterator) :=
  match remote.PeekBack 1 it with
  | None => Return (0, value.Float64frombits 0, false, it)
  | Some (t, v) =>
      if t <? Int64.sub T (promql.durationSeconds LookbackDelta)
      then Return (0, value.Float64frombits 0, false, it)
      else checked t v it
  end.

(** The sampling rule as the spec words it: the fallback is taken when
    the seek fails, lands strictly after [T], and also when it lands on
    a sample whose timestamp is exactly [T]. *)
Definition falls_back_also_on_exact_hit : Prop :=
  forall LookbackDelta b T ok b1,
    buffered_prefix b ->
    remote.Seek T b = Return (ok, b1) ->
    (ok = false
     \/ exists t v, remote.Values b1 = Return (t, v) /\ (t = T \/ T < t)) ->
    promql.vectorSelectorSingle LookbackDelta b T = fall_back LookbackDelta T b1.

(** The sample the codec makes of a point. *)
Definition sample_of_point (pt : value.Point) : prompb.Sample :=
  {| prompb.Value := value.V pt; prompb.Timestamp := value.T pt |}.

(** The series the codec makes of an entry of an instant response and
    of a range response whose points are converted one for one. *)
Definition instant_series (s : value.Sample) : remote.Series :=
  {| remote.labels := value.SampleMetric s;
     remote.samples := [sample_of_point (value.SamplePoint s)] |}.

(** Successful responses of a backend. *)
Definition instant_response (v : value.Vector) : remote.InstantQueryResult :=
  {| remote.InstantData :=
       Some {| remote.InstantResultType := "vector";
               remote.InstantResult := Some v |};
     remote.InstantStatus := "success" |}.

Definition range_response (m : value.Matrix) : remote.RangeQueryResult :=
  {| remote.RangeData :=
       Some {| remote.RangeResultType := "matrix";
               remote.RangeResult := Some m |};
     remote.RangeStatus := "success" |}.

(** The codec as the spec words it: a series that fails validation is
    dropped and the other series of the response are kept. *)
Definition discards_only_the_invalid_series : Prop :=
  forall (validation : model.Validation) (v : value.Vector),
  exists cur series,
    remote.FromInstantQueryResult (instant_response v)
    = remote.concreteSeriesSet cur series
    /\ forall s,
        In s v ->
        remote.validateLabelsAndMetricName (value.SampleMetric s) = None ->
        In (instant_series s) series.

Definition range_series (s : value.Series) : remote.Series :=
  {| remote.labels := value.Metric s;
     remote.samples := remote.range_samples (value.Points s) |}.

(** No two entries of a vector or of a matrix share a label set. *)
Definition distinct_labelsets (v : value.Value) : Prop :=
  match v with
  | value.OfVector vec => NoDup (map value.SampleMetric vec)
  | value.OfMatrix m => NoDup (map value.Metric m)
  | _ => True
  end.

(** The evaluator [ev] under another budget. *)
Definition with_budget (n : Z) (ev : promql.evaluator) : promql.evaluator :=
  {| promql.startTimestamp := promql.startTimestamp ev;
     promql.endTimestamp := promql.endTimestamp ev;
     promql.interval := promql.interval ev;
     promql.maxSamples := n;
     promql.currentSamples := promql.currentSamples ev |}.

(** The number of points of a matrix, as a sum over its series. *)
Definition total_points (m : value.Matrix) : Z :=
  fold_right (fun s n => Z.of_nat (List.length (value.Points s)) + n) 0 m.

(** The query [q] run by an engine whose budget is [n]. *)
Definition query_with_max (n : Z) (q : promql.query) : promql.query :=
  {| promql.queryable := promql.queryable q;
     promql.params := promql.params q;
     promql.ng := {| promql.timeout := promql.timeout (promql.ng q);
                     promql.gate := promql.gate (promql.ng q);
                     promql.maxSamplesPerQuery := n |} |}.

(** [exec] in three parts: which of its two branches a query takes,
    the evaluator it builds, and what it makes of the evaluator's
    value. *)
Definition is_instant (q : promql.query) : bool :=
  (remote.Start (promql.params q) =? remote.End_ (promql.params q))
  && (remote.Step (promql.params q) =? 0).

Definition evaluator_of (q : promql.query) : promql.evaluator :=
  if is_instant q then
    {| promql.startTimestamp := remote.Start (promql.params q);
       promql.endTimestamp := remote.Start (promql.params q);
       promql.interval := 1;
       promql.maxSamples := promql.maxSamplesPerQuery (promql.ng q);
       promql.currentSamples := 0 |}
  else
    {| promql.startTimestamp := remote.Start (promql.params q);
       promql.endTimestamp := remote.End_ (promql.params q);
       promql.interval := remote.Step (promql.params q);
       promql.maxSamples := promql.maxSamplesPerQuery (promql.ng q);
       promql.currentSamples := 0 |}.

Definition finish (ctx : promql.Context) (q : promql.query) (val : value.Value)
  : outcome (option value.Value * option error) :=
  match val with
  | value.OfMatrix mat =>
      if is_instant q then
        vector <- promql.to_vector mat (remote.Start (promql.params q)) ;;
        Return (Some (value.OfVector vector), None)
      else
        match promql.contextDone ctx "expression evaluation" with
        | Some err => Return (None, Some err)
        | None =>
            Return (Some (value.OfMatrix (sort.Sort value.Matrix_Less mat)), None)
        end
  | _ => Panic promql.invalid_expression_type
  end.

(** The timestamps of a series ascend strictly (spec, section 3:
    "an ascending, timestamp-unique ordered sequence of Points"). *)
Definition ascending (s : remote.concreteSeries) : Prop :=
  forall i j,
    (i < j < List.length (remote.samples s))%nat ->
    prompb.Timestamp (nth i (remote.samples s) prompb.zero)
    < prompb.Timestamp (nth j (remote.samples s) prompb.zero).

(** [smp] is the most recent sample of the series at or before [T]. *)
Definition latest_at_or_before (T : Z) (s : remote.concreteSeries)
  (smp : prompb.Sample) : Prop :=
  In smp (remote.samples s)
  /\ prompb.Timestamp smp <= T
  /\ forall smp', In smp' (remote.samples s) ->
                  prompb.Timestamp smp' <= T ->
                  prompb.Timestamp smp' <= prompb.Timestamp smp.

(** [smp] can answer a query at [T]: it lies in the lookback window
    and does not carry the stale marker. *)
Definition eligible (LookbackDelta T : Z) (smp : prompb.Sample) : Prop :=
  T - promql.durationSeconds LookbackDelta <= prompb.Timestamp smp
  /\ value.IsStaleNaN (prompb.Value smp) = false.

(** Every sample of the series before the cursor of [b] is older than
    [T]: the state of the buffer when the evaluator, stepping through
    its grid in increasing order, comes to [T]. *)
Definition behind (T : Z) (b : remote.BufferedSeriesIterator) : Prop :=
  forall i, 0 <= i < remote.cur (remote.it b) ->
            i < remote.len_samples (remote.it b) ->
            prompb.Timestamp (remote.sample_at (remote.it b) i) < T.

(** The answer of the sampling rule when it selects [smp], and when it
    selects nothing. *)
Definition selected (smp : prompb.Sample) : Z * value.float64 * bool :=
  (prompb.Timestamp smp, prompb.Value smp, true).

Definition nothing : Z * value.float64 * bool :=
  (0, value.Float64frombits 0, false).

(** A response of a backend from which the codec makes no series set
    at all: its status is not "success", or it carries no data, or the
    data carry no result. *)
Definition instant_unusable (res : remote.InstantQueryResult) : Prop :=
  String.eqb (remote.InstantStatus res) "success" = false
  \/ remote.InstantData res = None
  \/ exists data, remote.InstantData res = Some data
                  /\ remote.InstantResult data = None.

Definition range_unusable (res : remote.RangeQueryResult) : Prop :=
  String.eqb (remote.RangeStatus res) "success" = false
  \/ remote.RangeData res = None
  \/ exists data, remote.RangeData res = Some data
                  /\ remote.RangeResult data = None.

(** A label that passes the three checks of
    [validateLabelsAndMetricName]. *)
Definition valid_label {validation : model.Validation} (l : labels.Label) : bool :=
  negb (String.eqb (labels.Name l) labels.MetricName
        && negb (model.IsValidMetricName (labels.Value l)))
  && model.LabelName_IsValid (labels.Name l)
  && model.LabelValue_IsValid (labels.Value l).

(** The timestamps of the samples of an iterator's series do not
    descend. *)
Definition nondecreasing (c : remote.concreteSeriesIterator) : Prop :=
  forall i j,
    0 <= i <= j -> j < remote.len_samples c ->
    prompb.Timestamp (remote.sample_at c i)
    <= prompb.Timestamp (remote.sample_at c j).

(** The iterator after [n] calls of [Next]. *)
Fixpoint Next_times (n : nat) (c : remote.concreteSeriesIterator)
  : remote.concreteSeriesIterator :=
  match n with
  | O => c
  | S k => snd (remote.concrete_Next (Next_times k c))
  end.

(** [l1] is [l2] with some elements left out. *)
Inductive subsequence {A : Type} : list A -> list A -> Prop :=
| sub_nil : forall l, subsequence [] l
| sub_take : forall x l1 l2, subsequence l1 l2 -> subsequence (x :: l1) (x :: l2)
| sub_skip : forall x l1 l2, subsequence l1 l2 -> subsequence l1 (x :: l2).

(** The points [pts] lie on the grid of [ev] from [ts] on, in
    increasing order of time. *)
Definition on_grid_from (ev : promql.evaluator) (ts : Z) (pts : list value.Point)
  : Prop :=
  Forall (fun p => ts <= value.T p <= promql.endTimestamp ev
                   /\ (value.T p - promql.startTimestamp ev)
                        mod promql.interval ev = 0) pts
  /\ StronglySorted (fun a b => value.T a < value.T b) pts.

(** * Properties *)

(** ** The stale marker *)

Lemma IsStaleNaN_iff (v : value.float64) :
  value.IsStaleNaN v = true <-> value.Float64bits v = value.StaleNaN.
Proof. unfold value.IsStaleNaN. apply Z.eqb_eq. Qed.

Lemma stale_marker_is_a_NaN : value.IsNaN Fixtures.stale = true.
Proof. reflexivity. Qed.

Lemma stale_marker_not_equal_to_itself :
  value.float_eqb Fixtures.stale Fixtures.stale = false.
Proof. reflexivity. Qed.

Lemma NormalNaN_is_not_stale :
  value.IsStaleNaN (value.Float64frombits value.NormalNaN) = false.
Proof. reflexivity. Qed.

(** What the sampling rule returns is never the stale marker. *)
Lemma vectorSelectorSingle_not_stale delta it ts t v it' :
  promql.vectorSelectorSingle delta it ts = Return (t, v, true, it') ->
  value.IsStaleNaN v = false.
Proof.
  unfold promql.vectorSelectorSingle.
  destruct (remote.Seek ts it) as [[ok it1] | e | ]; simpl; try discriminate.
  destruct ok; simpl.
  - destruct (remote.Values it1) as [[t1 v1] | e | ]; simpl; try discriminate.
    destruct (t1 >? ts).
    + destruct (remote.PeekBack 1 it1) as [[t2 v2] | ]; try discriminate.
      destruct (t2 <? _); try discriminate.
      destruct (value.IsStaleNaN v2) eqn:E; intros H; inversion H; subst; exact E.
    + destruct (value.IsStaleNaN v1) eqn:E; intros H; inversion H; subst; exact E.
  - destruct (remote.PeekBack 1 it1) as [[t2 v2] | ]; try discriminate.
    destruct (t2 <? _); try discriminate.
    destruct (value.IsStaleNaN v2) eqn:E; intros H; inversion H; subst; exact E.
Qed.

(** C7: a point carrying the stale marker is never surfaced by the
    sampling rule: whatever the rule returns is not the stale marker;
    on a series whose only point is (1000, stale marker) the rule
    returns nothing at 1000 and the instant query at 1000 returns an
    empty vector; and the marker is recognised by its bit pattern alone
    (a value is stale exactly when its bits are [StaleNaN]), where the
    numeric equality of floats does not even hold between the marker
    and itself and an ordinary NaN is not taken for it. *)
Theorem stale_marker_never_surfaced :
  (forall delta it ts t v it',
      promql.vectorSelectorSingle delta it ts = Return (t, v, true, it') ->
      value.IsStaleNaN v = false)
  /\ (let it := Fixtures.fresh promql.DefaultLookbackDelta
                  (Fixtures.series_of Fixtures.up [(1000, Fixtures.stale)]) in
      exists it',
        promql.vectorSelectorSingle promql.DefaultLookbackDelta it 1000
        = Return (0, value.Float64frombits 0, false, it'))
  /\ (forall fuel pool,
         Fixtures.Query (S (S fuel)) pool promql.Background
           (Fixtures.handles_of
              [Fixtures.backend
                 [Fixtures.sample_of Fixtures.up 1000 Fixtures.stale] []])
           1000 "up"
         = Return (OK (Fixtures.vector_result [])))
  /\ (forall v, value.IsStaleNaN v = true <-> value.Float64bits v = value.StaleNaN)
  /\ value.float_eqb Fixtures.stale Fixtures.stale = false
  /\ value.IsStaleNaN (value.Float64frombits value.NormalNaN) = false.
Proof.
  split; [ exact vectorSelectorSingle_not_stale | ].
  split; [ eexists; vm_compute; reflexivity | ].
  split; [ intros fuel pool; destruct pool; vm_compute; reflexivity | ].
  split; [ exact IsStaleNaN_iff | ].
  split; reflexivity.
Qed.

Lemma stale_marker_never_surfaced_witness :
  value.IsStaleNaN Fixtures.one = false.
Proof.
  apply (proj1 stale_marker_never_surfaced promql.DefaultLookbackDelta
           (Fixtures.fresh promql.DefaultLookbackDelta
              (Fixtures.series_of Fixtures.up [(1000, Fixtures.one)]))
           1300 1000 Fixtures.one
           {| remote.it :=
                {| remote.cur := 1;
                   remote.series :=
                     Fixtures.series_of Fixtures.up [(1000, Fixtures.one)] |};
              remote.buf :=
                [ {| prompb.Value := Fixtures.one; prompb.Timestamp := 1000 |} ];
              remote.delta := 300 |}).
  vm_compute. reflexivity.
Defined.

(** ** Machine integers in range *)

Lemma wrap_in_range z : Int64.in_range z -> Int64.wrap z = z.
Proof.
  unfold Int64.in_range, Int64.min_int, Int64.max_int, Int64.wrap.
  intros H. rewrite Z.mod_small; lia.
Qed.

Lemma durationSeconds_default :
  promql.durationSeconds promql.DefaultLookbackDelta = 300.
Proof. reflexivity. Qed.

(** ** The buffered iterator over a concrete series *)

Lemma firstn_snoc {A : Type} (d : A) (l : list A) (n : nat) :
  (n < List.length l)%nat -> firstn (S n) l = firstn n l ++ [nth n l d].
Proof.
  revert n. induction l as [ | x l IH ]; intros n H; simpl in H.
  - lia.
  - destruct n as [ | n ]; [ reflexivity | ].
    rewrite !firstn_cons. rewrite (IH n) by lia. reflexivity.
Qed.

Lemma concrete_At_positioned c :
  remote.positioned c = true ->
  remote.concrete_At c = Return (remote.sample_at c (remote.cur c)).
Proof.
  unfold remote.positioned, remote.concrete_At. intros ->. reflexivity.
Qed.

Lemma remember_spec b :
  buffered_prefix b ->
  exists b1,
    remote.remember b = Return b1
    /\ remote.it b1 = remote.it b
    /\ remote.delta b1 = remote.delta b
    /\ remote.buf b1
       = rev (firstn (Z.to_nat (remote.cur (remote.it b) + 1))
                (remote.samples (remote.series (remote.it b)))).
Proof.
  intros [Hcur Hbuf]. unfold remote.remember.
  destruct (remote.positioned (remote.it b)) eqn:Hpos.
  - rewrite (concrete_At_positioned _ Hpos). simpl.
    eexists. split; [ reflexivity | ]. simpl. repeat split.
    unfold remote.positioned, remote.len_samples in Hpos.
    apply andb_true_iff in Hpos. destruct Hpos as [H0 H1].
    apply Z.leb_le in H0. apply Z.ltb_lt in H1.
    replace (Z.to_nat (remote.cur (remote.it b) + 1))
      with (S (Z.to_nat (remote.cur (remote.it b)))) by lia.
    rewrite (firstn_snoc prompb.zero) by lia.
    rewrite rev_app_distr. simpl. rewrite <- Hbuf. reflexivity.
  - exists b. repeat split. rewrite Hbuf. f_equal.
    unfold remote.positioned, remote.len_samples in Hpos.
    apply andb_false_iff in Hpos. destruct Hpos as [H0 | H1].
    + apply Z.leb_gt in H0.
      replace (remote.cur (remote.it b)) with (-1) by lia. reflexivity.
    + apply Z.ltb_ge in H1.
      rewrite !firstn_all2 by lia. reflexivity.
Qed.

Lemma positioned_iff c :
  remote.positioned c = true <-> 0 <= remote.cur c < remote.len_samples c.
Proof.
  unfold remote.positioned. rewrite andb_true_iff, Z.leb_le, Z.ltb_lt. tauto.
Qed.

Lemma seek_loop_spec turns :
  forall t b,
    buffered_prefix b ->
    remote.len_samples (remote.it b) - remote.cur (remote.it b) <= Z.of_nat turns ->
    (1 <= turns)%nat ->
    (remote.positioned (remote.it b) = true ->
     prompb.Timestamp (remote.sample_at (remote.it b) (remote.cur (remote.it b))) < t) ->
    exists ok b1, remote.seek_loop turns t b = Return (ok, b1) /\ seeks_to t b ok b1.
Proof.
  induction turns as [ | k IH ]; intros t b Hb Hturns Hone Hstart; [ lia | ].
  cbn [remote.seek_loop].
  destruct (remember_spec b Hb) as (b1 & -> & Hit & Hdelta & Hbuf).
  cbn [bind]. unfold remote.concrete_Next. rewrite Hit, Hdelta.
  destruct Hb as [Hcur _].
  remember (remote.it b) as c eqn:Hc.
  set (c2 := {| remote.cur := remote.cur c + 1; remote.series := remote.series c |}).
  set (b2 := {| remote.it := c2; remote.buf := remote.buf b1;
                remote.delta := remote.delta b |}).
  assert (Hb2 : buffered_prefix b2).
  { split; simpl; [ lia | exact Hbuf ]. }
  assert (Hleft : forall i, 0 <= i -> remote.cur c <= i < remote.cur c + 1 ->
                            i < remote.len_samples c ->
                            prompb.Timestamp (remote.sample_at c i) < t).
  { intros i H0 Hi Hlen. replace i with (remote.cur c) by lia.
    apply Hstart. apply positioned_iff. lia. }
  destruct (remote.cur c + 1 <? remote.len_samples c) eqn:Hnext.
  - apply Z.ltb_lt in Hnext.
    assert (Hpos2 : remote.positioned c2 = true).
    { apply positioned_iff. unfold c2, remote.len_samples in *. simpl. lia. }
    rewrite (concrete_At_positioned _ Hpos2). cbn [bind].
    destruct (prompb.Timestamp (remote.sample_at c2 (remote.cur c2)) >=? t) eqn:Hge.
    + exists true, b2. split; [ reflexivity | ].
      apply Z.geb_le in Hge.
      unfold seeks_to. rewrite <- Hc.
      split; [ exact Hb2 | ]. simpl.
      repeat split; try assumption; lia.
    + destruct (IH t b2 Hb2) as (ok & b3 & Hrun & Hto).
      * unfold b2, c2, remote.len_samples in *. simpl. lia.
      * unfold remote.len_samples in *. lia.
      * intros _. simpl. rewrite Z.geb_leb in Hge. apply Z.leb_gt in Hge. exact Hge.
      * exists ok, b3. split; [ exact Hrun | ].
        destruct Hto as (Hp3 & Hs3 & Hd3 & Hc3 & Hlt3 & Hok3).
        unfold seeks_to. rewrite <- Hc.
        split; [ exact Hp3 | ]. simpl in *.
        split; [ assumption | ].
        split; [ assumption | ].
        split; [ lia | ].
        split; [ | exact Hok3 ].
        intros i H0 Hi Hlen.
        destruct (Z.eq_dec i (remote.cur c)) as [-> | Hne].
        -- apply Hleft; lia.
        -- apply (Hlt3 i); try lia. exact Hlen.
  - apply Z.ltb_ge in Hnext.
    exists false, b2. split; [ reflexivity | ].
    unfold seeks_to. rewrite <- Hc.
    split; [ exact Hb2 | ]. simpl.
    repeat split; try assumption; lia.
Qed.

(** [Seek] always returns, on the first sample from the cursor on whose
    timestamp is at least [t] or past the end, with the samples left
    behind in the buffer. *)
Lemma Seek_spec t b :
  buffered_prefix b ->
  exists ok b1, remote.Seek t b = Return (ok, b1) /\ seeks_to t b ok b1.
Proof.
  intros Hb. unfold remote.Seek.
  assert (Hturns : remote.len_samples (remote.it b) - remote.cur (remote.it b)
                   <= Z.of_nat (remote.seek_turns b)).
  { destruct Hb as [Hcur _]. unfold remote.seek_turns, remote.len_samples. lia. }
  assert (Hone : (1 <= remote.seek_turns b)%nat).
  { unfold remote.seek_turns. lia. }
  destruct (remote.positioned (remote.it b)) eqn:Hpos.
  - rewrite (concrete_At_positioned _ Hpos). cbn [bind].
    destruct (prompb.Timestamp _ >=? t) eqn:Hge.
    + exists true, b. split; [ reflexivity | ].
      apply Z.geb_le in Hge.
      unfold seeks_to.
      split; [ exact Hb | ].
      repeat split; try assumption; lia.
    + apply seek_loop_spec; try assumption.
      intros _. rewrite Z.geb_leb in Hge. apply Z.leb_gt in Hge. exact Hge.
  - apply seek_loop_spec; try assumption.
    intros H. congruence.
Qed.

Lemma fresh_buffered_prefix delta s :
  buffered_prefix (remote.Reset (remote.Iterator s) (remote.NewBuffer delta)).
Proof. split; simpl; [ lia | reflexivity ]. Qed.

(** ** The sampling rule *)

(** The rule in terms of the three iterator operations. *)
Lemma vectorSelectorSingle_eq LookbackDelta b T :
  promql.vectorSelectorSingle LookbackDelta b T
  = ('(ok, b1) <- remote.Seek T b ;;
     if ok then
       '(t, v) <- remote.Values b1 ;;
       if t >? T then fall_back LookbackDelta T b1 else checked t v b1
     else fall_back LookbackDelta T b1).
Proof.
  unfold promql.vectorSelectorSingle, fall_back, checked.
  destruct (remote.Seek T b) as [[ok b1] | e | ]; simpl; try reflexivity.
  destruct ok; simpl; [ | reflexivity ].
  destruct (remote.Values b1) as [[t v] | e | ]; reflexivity.
Qed.

(** C8, as the code has it: for every series and target timestamp T the
    seek returns; if it lands on a sample whose timestamp is exactly T
    that sample is used directly (unless stale); if the seek fails or
    lands strictly after T the rule falls back to the most recent sample
    strictly before the current position, usable only if its timestamp
    is at least T minus the lookback window. *)
Theorem sampling_rule_fallback LookbackDelta b T :
  buffered_prefix b ->
  exists ok b1,
    remote.Seek T b = Return (ok, b1)
    /\ if ok then
         exists t v,
           remote.Values b1 = Return (t, v)
           /\ T <= t
           /\ promql.vectorSelectorSingle LookbackDelta b T
              = (if t =? T then checked t v b1 else fall_back LookbackDelta T b1)
       else
         promql.vectorSelectorSingle LookbackDelta b T
         = fall_back LookbackDelta T b1.
Proof.
  intros Hb. destruct (Seek_spec T b Hb) as (ok & b1 & Hseek & Hto).
  exists ok, b1. split; [ exact Hseek | ].
  rewrite vectorSelectorSingle_eq, Hseek. cbn [bind].
  destruct ok; [ | reflexivity ].
  destruct Hto as (_ & _ & _ & _ & _ & Hpos & Hge).
  unfold remote.Values. rewrite (concrete_At_positioned _ Hpos). cbn [bind].
  eexists _, _. split; [ reflexivity | ]. split; [ exact Hge | ].
  destruct (_ =? T) eqn:Heq.
  - apply Z.eqb_eq in Heq. rewrite Heq.
    rewrite Z.gtb_ltb, Z.ltb_irrefl. reflexivity.
  - apply Z.eqb_neq in Heq.
    rewrite Z.gtb_ltb. rewrite (proj2 (Z.ltb_lt _ _)) by lia. reflexivity.
Qed.

Lemma sampling_rule_fallback_witness :
  let b := Fixtures.fresh promql.DefaultLookbackDelta
             (Fixtures.series_of Fixtures.up
                [(900, Fixtures.one); (1000, Fixtures.two)]) in
  exists ok b1,
    remote.Seek 1000 b = Return (ok, b1)
    /\ if ok then
         exists t v,
           remote.Values b1 = Return (t, v)
           /\ 1000 <= t
           /\ promql.vectorSelectorSingle promql.DefaultLookbackDelta b 1000
              = (if t =? 1000 then checked t v b1
                 else fall_back promql.DefaultLookbackDelta 1000 b1)
       else
         promql.vectorSelectorSingle promql.DefaultLookbackDelta b 1000
         = fall_back promql.DefaultLookbackDelta 1000 b1.
Proof.
  intros b. apply (sampling_rule_fallback promql.DefaultLookbackDelta b 1000).
  split; [ simpl; lia | reflexivity ].
Defined.

(** C8, as the spec words it, fails: on the series (900, 1.0),
    (1000, 2.0) the seek to 1000 lands on the sample at exactly 1000,
    the most recent sample before it is (900, 1.0), inside the window,
    and the rule returns (1000, 2.0). *)
Lemma sampling_rule_exact_hit_counterexample :
  ~ falls_back_also_on_exact_hit.
Proof.
  intros H.
  pose (b := Fixtures.fresh promql.DefaultLookbackDelta
               (Fixtures.series_of Fixtures.up
                  [(900, Fixtures.one); (1000, Fixtures.two)])).
  pose (b1 := {| remote.it :=
                   {| remote.cur := 1; remote.series := remote.series (remote.it b) |};
                 remote.buf :=
                   [ {| prompb.Value := Fixtures.one; prompb.Timestamp := 900 |} ];
                 remote.delta := 300 |}).
  specialize (H promql.DefaultLookbackDelta b 1000 true b1).
  assert (Hb : buffered_prefix b) by (split; [ simpl; lia | reflexivity ]).
  assert (Hseek : remote.Seek 1000 b = Return (true, b1)) by reflexivity.
  assert (Hhit : true = false
                 \/ exists t v, remote.Values b1 = Return (t, v)
                                /\ (t = 1000 \/ 1000 < t)).
  { right. exists 1000, Fixtures.two. split; [ reflexivity | left; reflexivity ]. }
  specialize (H Hb Hseek Hhit).
  vm_compute in H. discriminate H.
Qed.

(** ** The lookback boundary *)

(** C6: the lookback boundary is inclusive.  With the window of 300s
    and a series whose only real sample is at t=1000, the sampling rule
    at 1300 returns that sample and at 1301 returns none; the instant
    query at 1300 returns the sample (stamped 1300) and the instant
    query at 1301 returns no sample for the series. *)
Theorem lookback_boundary_inclusive (v : value.float64) :
  value.IsStaleNaN v = false ->
  let s := Fixtures.series_of Fixtures.up [(1000, v)] in
  let it := Fixtures.fresh promql.DefaultLookbackDelta s in
  let h := Fixtures.handles_of
             [Fixtures.backend [Fixtures.sample_of Fixtures.up 1000 v] []] in
  promql.durationSeconds promql.DefaultLookbackDelta = 300
  /\ (exists it',
         promql.vectorSelectorSingle promql.DefaultLookbackDelta it 1300
         = Return (1000, v, true, it'))
  /\ (exists it',
         promql.vectorSelectorSingle promql.DefaultLookbackDelta it 1301
         = Return (0, value.Float64frombits 0, false, it'))
  /\ (forall fuel pool,
         Fixtures.Query (S (S fuel)) pool promql.Background h 1300 "up"
         = Return (OK (Fixtures.vector_result
                         [Fixtures.sample_of Fixtures.up 1300 v])))
  /\ (forall fuel pool,
         Fixtures.Query (S (S fuel)) pool promql.Background h 1301 "up"
         = Return (OK (Fixtures.vector_result []))).
Proof.
  intros Hv s it h. destruct v as [bits].
  unfold value.IsStaleNaN in Hv. vm_compute in Hv.
  split; [ reflexivity | ].
  split; [ eexists; vm_compute; rewrite Hv; reflexivity | ].
  split; [ eexists; vm_compute; reflexivity | ].
  split; intros fuel pool; destruct pool; vm_compute; rewrite ?Hv; reflexivity.
Qed.

Lemma lookback_boundary_inclusive_witness :
  promql.durationSeconds promql.DefaultLookbackDelta = 300
  /\ exists it',
      promql.vectorSelectorSingle promql.DefaultLookbackDelta
        (Fixtures.fresh promql.DefaultLookbackDelta
           (Fixtures.series_of Fixtures.up [(1000, Fixtures.one)])) 1300
      = Return (1000, Fixtures.one, true, it').
Proof.
  pose proof (lookback_boundary_inclusive Fixtures.one eq_refl) as H.
  cbv zeta in H. split; [ apply H | apply H ].
Defined.

(** ** Instant queries *)

Lemma to_vector_spec start :
  forall mat vec,
    promql.to_vector mat start = Return vec ->
    Forall (fun s => value.T (value.SamplePoint s) = start) vec
    /\ map value.SampleMetric vec = map value.Metric mat.
Proof.
  induction mat as [ | s mat IH ]; intros vec H; simpl in H.
  - inversion H. split; constructor.
  - destruct (value.Points s) as [ | p ps ]; [ discriminate | ].
    destruct (promql.to_vector mat start) as [vec' | e | ]; simpl in H;
      try discriminate.
    inversion H. subst vec. destruct (IH vec' eq_refl) as [HT HM].
    split.
    + constructor; [ reflexivity | exact HT ].
    + simpl. rewrite HM. reflexivity.
Qed.

(** C9: every sample of the vector an instant query at [ts] returns
    carries the timestamp [ts], whatever the timestamp of the sample
    the selector picked. *)
Theorem instant_vector_timestamps LookbackDelta fuel pool ctx q res :
  remote.Start (promql.params q) = remote.End_ (promql.params q) ->
  remote.Step (promql.params q) = 0 ->
  promql.Exec LookbackDelta fuel pool ctx q = Return res ->
  value.Err res = None ->
  exists vec,
    value.Value_ res = Some (value.OfVector vec)
    /\ Forall (fun s => value.T (value.SamplePoint s)
                        = remote.Start (promql.params q)) vec.
Proof.
  intros Hse Hstep Hrun Herr.
  unfold promql.Exec, promql.exec in Hrun.
  rewrite Hse, Hstep, Z.eqb_refl in Hrun. cbn [andb] in Hrun.
  destruct (promql.gate_Start ctx).
  { cbn in Hrun. inversion Hrun. subst res. discriminate Herr. }
  destruct (promql.populateSeries ctx (promql.queryable q) (promql.params q))
    as [[series | e] | e | ]; cbn [bind] in Hrun; try discriminate.
  2: { inversion Hrun. subst res. discriminate Herr. }
  destruct (promql.eval _ _ _ _ series) as [val | e | ]; cbn [bind] in Hrun;
    try discriminate.
  destruct val as [mat | | | ]; cbn [bind] in Hrun; try discriminate.
  destruct (promql.to_vector mat _) as [vec | e | ] eqn:Hvec; cbn [bind] in Hrun;
    try discriminate.
  inversion Hrun. subst res. simpl. exists vec. split; [ reflexivity | ].
  apply to_vector_spec in Hvec. rewrite Hse. apply Hvec.
Qed.

Lemma instant_vector_timestamps_witness :
  exists vec,
    Some (value.OfVector [Fixtures.sample_of Fixtures.up 1300 Fixtures.one])
    = Some (value.OfVector vec)
    /\ Forall (fun s => value.T (value.SamplePoint s) = 1300) vec.
Proof.
  apply (instant_vector_timestamps promql.DefaultLookbackDelta 2 0
           promql.Background
           (Fixtures.query_with_budget 10
              [Fixtures.backend
                 [Fixtures.sample_of Fixtures.up 1000 Fixtures.one] []]
              1300 1300 0)
           {| value.Err := None;
              value.Value_ :=
                Some (value.OfVector
                        [Fixtures.sample_of Fixtures.up 1300 Fixtures.one]) |});
    reflexivity.
Defined.

(** ** Evaluation is not total: a zero step *)

Lemma eval_zero_interval LookbackDelta fuel pool ev series :
  promql.interval ev = 0 ->
  promql.eval LookbackDelta fuel pool ev series
  = Panic (runtime_Error "integer divide by zero").
Proof.
  intros H. unfold promql.eval, promql.eval_from. rewrite H. reflexivity.
Qed.

Lemma exec_range_step_zero LookbackDelta fuel pool ctx q series :
  promql.gate_Start ctx = None ->
  promql.populateSeries ctx (promql.queryable q) (promql.params q)
  = Return (OK series) ->
  remote.Step (promql.params q) = 0 ->
  remote.Start (promql.params q) <> remote.End_ (promql.params q) ->
  promql.Exec LookbackDelta fuel pool ctx q
  = Panic (runtime_Error "integer divide by zero").
Proof.
  intros Hgate Hpop Hstep Hne.
  unfold promql.Exec, promql.exec. rewrite Hgate, Hpop. cbn [bind].
  apply Z.eqb_neq in Hne. rewrite Hne. cbn [andb].
  rewrite eval_zero_interval by exact Hstep. reflexivity.
Qed.

(** C10 fails on the code: the range query with step 0 and start 0,
    end 10, over a backend that answers, is not taken for an instant
    query; the evaluator divides by the zero step and the panic leaves
    [QueryRange]. *)
Theorem range_query_step_zero_panics :
  forall fuel pool,
    Fixtures.QueryRange fuel pool promql.Background
      (Fixtures.handles_of
         [Fixtures.backend [Fixtures.sample_of Fixtures.up 0 Fixtures.one] []])
      "up" 0 10 0
    = Panic (runtime_Error "integer divide by zero").
Proof. intros fuel pool. reflexivity. Qed.

(** ** The sample budget is enforced by a panic *)

(** C2 fails on the code: with a budget of one sample and two series
    holding a sample each, the instant query at 1000 does not return a
    result carrying an error: the [ErrTooManySamples] panic of the
    evaluator leaves [Exec].  The aborts of the context are returned
    errors: a deadline met in the queue, while the series are fetched,
    or after the evaluation of a range query. *)
Theorem budget_abort_escapes_as_panic :
  let two_series :=
    [Fixtures.backend
       [Fixtures.sample_of Fixtures.up 1000 Fixtures.one;
        Fixtures.sample_of Fixtures.down 1000 Fixtures.one]
       [] ] in
  (forall fuel pool,
      promql.Exec promql.DefaultLookbackDelta (S (S fuel)) pool promql.Background
        (Fixtures.query_with_budget 1 two_series 1000 1000 0)
      = Panic (ErrTooManySamples "query execution"))
  /\ (forall LookbackDelta fuel pool ctx q,
         ctx promql.Queued = Some context_DeadlineExceeded ->
         promql.Exec LookbackDelta fuel pool ctx q
         = Return {| value.Err := Some (ErrQueryTimeout "query queue");
                     value.Value_ := None |})
  /\ (forall fuel pool,
         promql.Exec promql.DefaultLookbackDelta fuel pool
           (fun p => match p with
                     | promql.Fetching => Some context_DeadlineExceeded
                     | _ => None
                     end)
           (Fixtures.query_with_budget 1 two_series 1000 1000 0)
         = Return {| value.Err := Some context_DeadlineExceeded;
                     value.Value_ := None |}).
Proof.
  intros two_series. split; [ | split ].
  - intros fuel pool. destruct pool as [ | [ | pool ] ]; vm_compute; reflexivity.
  - intros LookbackDelta fuel pool ctx q H.
    unfold promql.Exec, promql.exec, promql.gate_Start. rewrite H. reflexivity.
  - intros fuel pool. vm_compute. reflexivity.
Qed.

(** ** The codec *)

Lemma fold_left_snoc {A B : Type} (f : A -> B) (l : list A) (acc : list B) :
  fold_left (fun acc x => acc ++ [f x]) l acc = acc ++ map f l.
Proof.
  revert acc. induction l as [ | x l IH ]; intros acc; simpl.
  - rewrite app_nil_r. reflexivity.
  - rewrite IH, <- app_assoc. reflexivity.
Qed.

Lemma range_samples_eq (pts : list value.Point) :
  remote.range_samples pts
  = repeat prompb.zero (List.length pts) ++ map sample_of_point pts.
Proof. unfold remote.range_samples. apply fold_left_snoc. Qed.

(** C4 fails on the code: the samples of a series built from a range
    response are as many zero samples (timestamp 0, value 0) as the
    backend returned points, followed by the points.  A response with
    the points (1000, 1.0), (2000, 2.0) gives a series of four samples,
    two of them at timestamp 0; and a range query over [0, 600] with
    step 300 against a backend whose only point is (1000, 1.0) returns
    the points (0, 0) and (300, 0), which no backend sent. *)
Theorem range_series_start_with_zero_samples :
  (forall pts,
      remote.range_samples pts
      = repeat prompb.zero (List.length pts) ++ map sample_of_point pts)
  /\ @remote.FromRangeQueryResult model.classic
       (range_response
          [ {| value.Metric := Fixtures.up;
               value.Points := [ {| value.T := 1000; value.V := Fixtures.one |};
                                 {| value.T := 2000; value.V := Fixtures.two |} ] |} ])
     = remote.concreteSeriesSet 0
         [ {| remote.labels := Fixtures.up;
              remote.samples :=
                [ prompb.zero; prompb.zero;
                  {| prompb.Value := Fixtures.one; prompb.Timestamp := 1000 |};
                  {| prompb.Value := Fixtures.two; prompb.Timestamp := 2000 |} ] |} ]
  /\ (forall fuel pool,
         Fixtures.QueryRange (4 + fuel) pool promql.Background
           (Fixtures.handles_of
              [Fixtures.backend []
                 [ {| value.Metric := Fixtures.up;
                      value.Points :=
                        [ {| value.T := 1000; value.V := Fixtures.one |} ] |} ] ])
           "up" 0 600 300
         = Return (OK (Fixtures.matrix_result
                         [ {| value.Metric := Fixtures.up;
                              value.Points :=
                                [ {| value.T := 0;
                                     value.V := value.Float64frombits 0 |};
                                  {| value.T := 300;
                                     value.V := value.Float64frombits 0 |} ] |} ]))).
Proof.
  split; [ exact range_samples_eq | ].
  split; [ reflexivity | ].
  intros fuel pool. destruct pool; vm_compute; reflexivity.
Qed.

Section CodecFacts.
Context {validation : model.Validation}.

Lemma instant_loop_valid (v : value.Vector) :
  forall acc,
    (forall s, In s v ->
               remote.validateLabelsAndMetricName (value.SampleMetric s) = None) ->
    remote.instant_loop v acc = OK (acc ++ map instant_series v).
Proof.
  induction v as [ | s v IH ]; intros acc Hall; simpl.
  - rewrite app_nil_r. reflexivity.
  - rewrite (Hall s (or_introl eq_refl)).
    rewrite IH by (intros s' Hs'; apply Hall; right; exact Hs').
    rewrite <- app_assoc. reflexivity.
Qed.

Lemma instant_loop_invalid (v : value.Vector) :
  forall acc,
    (exists s, In s v
               /\ remote.validateLabelsAndMetricName (value.SampleMetric s) <> None) ->
    exists err s,
      remote.instant_loop v acc = Fail err
      /\ In s v
      /\ remote.validateLabelsAndMetricName (value.SampleMetric s) = Some err.
Proof.
  induction v as [ | s v IH ]; intros acc [s0 [Hin Hbad]]; simpl.
  - destruct Hin.
  - destruct (remote.validateLabelsAndMetricName (value.SampleMetric s))
      as [err | ] eqn:Hs.
    + exists err, s. split; [ reflexivity | ]. split; [ left; reflexivity | exact Hs ].
    + destruct Hin as [-> | Hin]; [ congruence | ].
      destruct (IH (acc ++ [instant_series s])) as (err & s1 & Hrun & Hin1 & Hs1).
      { exists s0. split; assumption. }
      exists err, s1. split; [ exact Hrun | ].
      split; [ right; exact Hin1 | exact Hs1 ].
Qed.

Lemma range_loop_valid (m : value.Matrix) :
  forall acc,
    (forall s, In s m ->
               remote.validateLabelsAndMetricName (value.Metric s) = None) ->
    remote.range_loop m acc = OK (acc ++ map range_series m).
Proof.
  induction m as [ | s m IH ]; intros acc Hall; simpl.
  - rewrite app_nil_r. reflexivity.
  - rewrite (Hall s (or_introl eq_refl)).
    rewrite IH by (intros s' Hs'; apply Hall; right; exact Hs').
    rewrite <- app_assoc. reflexivity.
Qed.

Lemma range_loop_invalid (m : value.Matrix) :
  forall acc,
    (exists s, In s m
               /\ remote.validateLabelsAndMetricName (value.Metric s) <> None) ->
    exists err s,
      remote.range_loop m acc = Fail err
      /\ In s m
      /\ remote.validateLabelsAndMetricName (value.Metric s) = Some err.
Proof.
  induction m as [ | s m IH ]; intros acc [s0 [Hin Hbad]]; simpl.
  - destruct Hin.
  - destruct (remote.validateLabelsAndMetricName (value.Metric s))
      as [err | ] eqn:Hs.
    + exists err, s. split; [ reflexivity | ]. split; [ left; reflexivity | exact Hs ].
    + destruct Hin as [-> | Hin]; [ congruence | ].
      destruct (IH (acc ++ [range_series s])) as (err & s1 & Hrun & Hin1 & Hs1).
      { exists s0. split; assumption. }
      exists err, s1. split; [ exact Hrun | ].
      split; [ right; exact Hin1 | exact Hs1 ].
Qed.

Lemma surviving_skips_failed mergeSamples qs1 q qs2 p :
  (forall cur series, remote.Select q p <> OK (remote.concreteSeriesSet cur series)) ->
  remote.mergeQuerier_Select mergeSamples (qs1 ++ q :: qs2) p
  = remote.mergeQuerier_Select mergeSamples (qs1 ++ qs2) p.
Proof.
  intros Hq. unfold remote.mergeQuerier_Select, remote.surviving.
  rewrite !map_app, !flat_map_app. simpl.
  destruct (remote.Select q p) as [[ | err | cur series] | err];
    try reflexivity.
  exfalso. apply (Hq cur series). reflexivity.
Qed.
End CodecFacts.

(** C3, as the code has it: a label-name, label-value or metric-name
    validation failure in one series of a backend's response discards
    the whole response of that backend: the codec returns an error
    series set carrying the validation error, from which no series is
    read; a response in which every series validates is used whole.
    The failure is not fatal to the query while another backend
    survives: in the merge the failed backend counts for nothing, and
    the query fails when it is the sole backend. *)
Theorem invalid_series_discards_backend_response (validation : model.Validation) :
  (forall v,
      ((exists s, In s v
                  /\ remote.validateLabelsAndMetricName (value.SampleMetric s) <> None) ->
       exists err,
         remote.FromInstantQueryResult (instant_response v) = remote.errSeriesSet err
         /\ (exists s, In s v
                       /\ remote.validateLabelsAndMetricName (value.SampleMetric s)
                          = Some err))
      /\ ((forall s, In s v ->
                     remote.validateLabelsAndMetricName (value.SampleMetric s) = None) ->
          remote.FromInstantQueryResult (instant_response v)
          = remote.concreteSeriesSet 0
              (sort.Sort remote.byLabel_Less (map instant_series v))))
  /\ (forall m,
         ((exists s, In s m
                     /\ remote.validateLabelsAndMetricName (value.Metric s) <> None) ->
          exists err,
            remote.FromRangeQueryResult (range_response m) = remote.errSeriesSet err
            /\ (exists s, In s m
                          /\ remote.validateLabelsAndMetricName (value.Metric s)
                             = Some err))
         /\ ((forall s, In s m ->
                        remote.validateLabelsAndMetricName (value.Metric s) = None) ->
             remote.FromRangeQueryResult (range_response m)
             = remote.concreteSeriesSet 0
                 (sort.Sort remote.byLabel_Less (map range_series m))))
  /\ (forall ctx err,
         promql.expandSeriesSet ctx (remote.errSeriesSet err) = Return (Fail err))
  /\ (forall mergeSamples qs1 q qs2 p err,
         remote.Select q p = OK (remote.errSeriesSet err) ->
         remote.mergeQuerier_Select mergeSamples (qs1 ++ q :: qs2) p
         = remote.mergeQuerier_Select mergeSamples (qs1 ++ qs2) p)
  /\ (forall mergeSamples q p err,
         remote.Select q p = OK (remote.errSeriesSet err) ->
         remote.mergeQuerier_Select mergeSamples [q] p = Fail ErrAllBackendsFailed).
Proof.
  split; [ | split; [ | split; [ | split ] ] ].
  - intros v. split.
    + intros Hbad.
      destruct (instant_loop_invalid v [] Hbad) as (err & s & Hrun & Hin & Hs).
      exists err. split; [ | exists s; split; assumption ].
      unfold remote.FromInstantQueryResult. simpl. rewrite Hrun. reflexivity.
    + intros Hall. unfold remote.FromInstantQueryResult. simpl.
      rewrite (instant_loop_valid v [] Hall). reflexivity.
  - intros m. split.
    + intros Hbad.
      destruct (range_loop_invalid m [] Hbad) as (err & s & Hrun & Hin & Hs).
      exists err. split; [ | exists s; split; assumption ].
      unfold remote.FromRangeQueryResult. simpl. rewrite Hrun. reflexivity.
    + intros Hall. unfold remote.FromRangeQueryResult. simpl.
      rewrite (range_loop_valid m [] Hall). reflexivity.
  - intros ctx err. reflexivity.
  - intros mergeSamples qs1 q qs2 p err Hq.
    apply surviving_skips_failed. intros cur series. rewrite Hq. discriminate.
  - intros mergeSamples q p err Hq.
    unfold remote.mergeQuerier_Select, remote.surviving. simpl. rewrite Hq.
    reflexivity.
Qed.

(** C3, as the spec words it, fails: of a response with the valid
    series up and a series whose label name is bad-name, nothing
    is kept; the set the codec returns is an error set. *)
Lemma only_invalid_series_discarded_counterexample :
  ~ discards_only_the_invalid_series.
Proof.
  intros H.
  destruct (H model.classic
              [Fixtures.sample_of Fixtures.up 1000 Fixtures.one;
               Fixtures.sample_of Fixtures.bad 1000 Fixtures.one])
    as (cur & series & Hset & _).
  vm_compute in Hset. discriminate Hset.
Qed.

(** ** Sorting rearranges *)

Lemma insert_Permutation {A : Type} (Less : A -> A -> bool) (x : A) (l : list A) :
  Permutation (sort.insert Less x l) (x :: l).
Proof.
  induction l as [ | y l IH ]; simpl.
  - apply Permutation_refl.
  - destruct (Less x y).
    + apply Permutation_refl.
    + apply Permutation_trans with (y :: x :: l).
      * apply perm_skip. exact IH.
      * apply perm_swap.
Qed.

Lemma Sort_Permutation {A : Type} (Less : A -> A -> bool) (l : list A) :
  Permutation (sort.Sort Less l) l.
Proof.
  unfold sort.Sort.
  assert (H : forall acc, Permutation
                            (fold_left (fun acc x => sort.insert Less x acc) l acc)
                            (acc ++ l)).
  { induction l as [ | x l IH ]; intros acc; simpl.
    - rewrite app_nil_r. apply Permutation_refl.
    - eapply Permutation_trans; [ apply IH | ].
      apply Permutation_trans with ((x :: acc) ++ l).
      + apply Permutation_app_tail. apply insert_Permutation.
      + simpl. apply Permutation_middle. }
  apply (H []).
Qed.

(** ** The merge layer yields each identity once *)

Section MergeFacts.
Variable mergeSamples : list (list prompb.Sample) -> list prompb.Sample.

Lemma contributors_identity k backends s :
  In s (remote.contributors k backends) -> remote.Labels s = k.
Proof.
  unfold remote.contributors. rewrite in_flat_map.
  intros (b & _ & Hin).
  destruct (find (remote.same_identity k) b) as [s' | ] eqn:Hfind;
    [ | destruct Hin ].
  destruct Hin as [-> | []].
  apply find_some in Hfind. destruct Hfind as [_ Hsame].
  unfold remote.same_identity in Hsame.
  destruct (labels.Labels_eq_dec (remote.Labels s) k); [ assumption | discriminate ].
Qed.

Lemma mergeSeries_identity k backends :
  map remote.Labels (remote.mergeSeries mergeSamples k backends) = []
  \/ map remote.Labels (remote.mergeSeries mergeSamples k backends) = [k].
Proof.
  unfold remote.mergeSeries.
  pose proof (contributors_identity k backends) as Hid.
  destruct (remote.contributors k backends) as [ | s [ | s' cs ] ].
  - left. reflexivity.
  - right. simpl. rewrite (Hid s (or_introl eq_refl)). reflexivity.
  - right. simpl. unfold remote.Labels at 1. simpl.
    fold (remote.Labels s). rewrite (Hid s (or_introl eq_refl)). reflexivity.
Qed.

Lemma flat_map_identity_NoDup (f : labels.Labels -> list remote.Series) keys :
  (forall k, map remote.Labels (f k) = [] \/ map remote.Labels (f k) = [k]) ->
  NoDup keys ->
  NoDup (map remote.Labels (flat_map f keys))
  /\ forall x, In x (map remote.Labels (flat_map f keys)) -> In x keys.
Proof.
  intros Hf. induction keys as [ | k keys IH ]; intros Hnd; simpl.
  - split; [ constructor | intros x [] ].
  - inversion Hnd as [ | k' keys' Hnotin Hnd' ]. subst.
    destruct (IH Hnd') as [IHnd IHin].
    rewrite map_app.
    destruct (Hf k) as [-> | ->]; simpl.
    + split; [ exact IHnd | intros x Hx; right; apply IHin; exact Hx ].
    + split.
      * constructor; [ intros Hx; apply Hnotin, IHin, Hx | exact IHnd ].
      * intros x [-> | Hx]; [ left; reflexivity | right; apply IHin; exact Hx ].
Qed.

Lemma merged_NoDup backends :
  NoDup (map remote.Labels (remote.merged mergeSamples backends)).
Proof.
  unfold remote.merged. apply flat_map_identity_NoDup.
  - intros k. apply mergeSeries_identity.
  - unfold remote.identities.
    eapply Permutation_NoDup.
    + apply Permutation_sym. apply Sort_Permutation.
    + apply NoDup_nodup.
Qed.
End MergeFacts.

(** ** From the merged set to the evaluator *)

Lemma skipn_nth_error {A : Type} (l : list A) (n : nat) (x : A) :
  nth_error l n = Some x -> skipn n l = x :: skipn (S n) l.
Proof.
  revert n. induction l as [ | y l IH ]; intros n H.
  - destruct n; discriminate H.
  - destruct n as [ | n ]; simpl in H.
    + inversion H. reflexivity.
    + simpl. apply IH. exact H.
Qed.

(** What [expandSeriesSet] returns of a concrete set are the series
    from its cursor on. *)
Lemma expand_loop_concrete ctx l turns :
  forall cur res r,
    0 <= cur ->
    promql.expand_loop turns ctx (remote.concreteSeriesSet cur l) res
    = Return (OK r) ->
    r = res ++ skipn (Z.to_nat cur) l.
Proof.
  induction turns as [ | k IH ]; intros cur res r Hcur H; [ discriminate H | ].
  cbn [promql.expand_loop remote.SeriesSet_Next bind] in H.
  replace (cur + 1 - 1) with cur in H by lia.
  destruct (cur <? Z.of_nat (List.length l)) eqn:Hmore.
  - apply Z.ltb_lt in Hmore.
    destruct (ctx promql.Fetching); [ discriminate H | ].
    cbn [remote.SeriesSet_At] in H.
    replace (cur + 1 - 1) with cur in H by lia.
    rewrite (proj2 (Z.leb_le 0 cur) Hcur), (proj2 (Z.ltb_lt _ _) Hmore) in H.
    cbn [andb bind] in H.
    destruct (nth_error l (Z.to_nat cur)) as [s | ] eqn:Hnth; [ | discriminate H ].
    apply IH in H; [ | lia ]. subst r.
    rewrite (skipn_nth_error _ _ _ Hnth), <- app_assoc.
    replace (Z.to_nat (cur + 1)) with (S (Z.to_nat cur)) by lia. reflexivity.
  - apply Z.ltb_ge in Hmore. cbn in H. inversion H.
    rewrite skipn_all2 by lia. rewrite app_nil_r. reflexivity.
Qed.

Lemma populateSeries_reader_NoDup mergeSamples ctx reader p series :
  promql.populateSeries ctx (remote.Reader_Querier mergeSamples reader) p
  = Return (OK series) ->
  NoDup (map remote.Labels series).
Proof.
  unfold promql.populateSeries, remote.Reader_Querier.
  destruct (remote.queriers_of (remote.queryables reader) []) as [queriers | err];
    [ | discriminate ].
  cbn [remote.Select remote.NewMergeQuerier]. unfold remote.mergeQuerier_Select.
  destruct (remote.surviving _) as [ | b backends ]; [ discriminate | ].
  unfold promql.expandSeriesSet. intros H.
  apply expand_loop_concrete in H; [ | lia ].
  subst series. simpl. apply merged_NoDup.
Qed.

(** The metrics of the matrix are, in order, metrics of the series
    given to the evaluator: no series is evaluated twice. *)
Lemma eval_series_NoDup LookbackDelta fuel numSteps series :
  forall ev it pool mat mat' ev',
    promql.eval_series LookbackDelta fuel ev it pool numSteps series mat
    = Return (mat', ev') ->
    NoDup (map value.Metric mat ++ map remote.Labels series) ->
    NoDup (map value.Metric mat').
Proof.
  induction series as [ | s series IH ]; intros ev it pool mat mat' ev' H Hnd.
  - simpl in H. inversion H. subst. rewrite app_nil_r in Hnd. exact Hnd.
  - cbn [promql.eval_series] in H.
    destruct (promql.getPointSlice pool numSteps) as [[pts pool'] | e | ];
      cbn [bind] in H; try discriminate H.
    destruct (promql.eval_steps _ _ _ _ _ _) as [[[points it1] ev1] | e | ];
      cbn [bind] in H; try discriminate H.
    apply IH in H; [ exact H | ].
    destruct (0 <? List.length points)%nat.
    + rewrite map_app, <- app_assoc. exact Hnd.
    + simpl in Hnd. apply NoDup_remove_1 in Hnd. exact Hnd.
Qed.

Lemma eval_NoDup LookbackDelta fuel pool ev series mat :
  promql.eval LookbackDelta fuel pool ev series = Return (value.OfMatrix mat) ->
  NoDup (map remote.Labels series) ->
  NoDup (map value.Metric mat).
Proof.
  unfold promql.eval, promql.eval_from. intros H Hnd.
  destruct (promql.interval ev =? 0); [ discriminate H | ].
  destruct (promql.eval_series _ _ _ _ _ _ _ _) as [[mat' ev'] | e | ] eqn:Hrun;
    cbn [bind] in H; try discriminate H.
  inversion H. subst mat'.
  apply (eval_series_NoDup _ _ _ _ _ _ _ _ _ _ Hrun). exact Hnd.
Qed.

Lemma exec_distinct_labelsets mergeSamples LookbackDelta fuel pool ctx ng reader
  qs startTs endTs step v err :
  promql.exec LookbackDelta fuel pool ctx
    (promql.NewQuery ng (remote.Reader_Querier mergeSamples reader)
       qs startTs endTs step)
  = Return (Some v, err) ->
  distinct_labelsets v.
Proof.
  unfold promql.exec, promql.NewQuery. cbn [promql.queryable promql.params promql.ng].
  destruct (promql.gate_Start ctx); [ discriminate | ].
  destruct (promql.populateSeries _ _ _) as [[series | e] | e | ] eqn:Hpop;
    cbn [bind]; try discriminate.
  apply populateSeries_reader_NoDup in Hpop.
  cbn [remote.Start remote.End_ remote.Step].
  destruct ((startTs =? endTs) && (step =? 0)).
  - destruct (promql.eval _ _ _ _ _) as [[mat | | | ] | e | ] eqn:Heval;
      cbn [bind]; try discriminate.
    destruct (promql.to_vector mat startTs) as [vec | e | ] eqn:Hvec;
      cbn [bind]; try discriminate.
    intros H. inversion H. subst. simpl.
    apply to_vector_spec in Hvec. destruct Hvec as [_ ->].
    apply (eval_NoDup _ _ _ _ _ _ Heval Hpop).
  - destruct (promql.eval _ _ _ _ _) as [[mat | | | ] | e | ] eqn:Heval;
      cbn [bind]; try discriminate.
    destruct (promql.contextDone ctx _); [ discriminate | ].
    intros H. inversion H. subst. simpl.
    eapply Permutation_NoDup.
    + apply Permutation_map. apply Permutation_sym. apply Sort_Permutation.
    + apply (eval_NoDup _ _ _ _ _ _ Heval Hpop).
Qed.

Lemma respond_value res r :
  api.respond res = Return (OK r) ->
  value.Value_ res = Some (api.Result (api.Data r)) /\ value.Err res = None.
Proof.
  unfold api.respond. destruct (value.Err res); [ discriminate | ].
  destruct (value.Value_ res); [ | discriminate ].
  intros H. inversion H. split; reflexivity.
Qed.

(** C1: no two entries of the vector of an instant query, or of the
    matrix of a range query, share a label set, whatever the backends
    answer: series of the same identity coming from several backends
    are one series after the merge, and the evaluator makes at most one
    entry of each merged series. *)
Theorem evaluator_output_has_distinct_labelsets
  (mergeSamples : list (list prompb.Sample) -> list prompb.Sample)
  (LookbackDelta : Z) (fuel pool : nat) (ctx : promql.Context) (h : api.handles) :
  (forall now query r,
      api.Query mergeSamples LookbackDelta fuel pool ctx h now query = Return (OK r) ->
      distinct_labelsets (api.Result (api.Data r)))
  /\ (forall query startTs endTs step r,
         api.QueryRange mergeSamples LookbackDelta fuel pool ctx h
           query startTs endTs step = Return (OK r) ->
         distinct_labelsets (api.Result (api.Data r))).
Proof.
  assert (Hexec : forall qs startTs endTs step r,
             (res <- promql.Exec LookbackDelta fuel pool ctx
                       (promql.NewQuery (api.queryEngine h)
                          (remote.Reader_Querier mergeSamples (api.remoteReader h))
                          qs startTs endTs step) ;;
              api.respond res) = Return (OK r) ->
             distinct_labelsets (api.Result (api.Data r))).
  { intros qs startTs endTs step r. unfold promql.Exec.
    destruct (promql.exec _ _ _ _ _) as [[v err] | e | ] eqn:Hexec;
      cbn [bind]; try discriminate.
    intros H. apply respond_value in H. simpl in H. destruct H as [-> _].
    apply (exec_distinct_labelsets _ _ _ _ _ _ _ _ _ _ _ _ _ Hexec). }
  split.
  - intros now query r. apply Hexec.
  - intros query startTs endTs step r. apply Hexec.
Qed.

Lemma evaluator_output_has_distinct_labelsets_witness :
  distinct_labelsets
    (value.OfVector [Fixtures.sample_of Fixtures.up 1300 Fixtures.one]).
Proof.
  apply (proj1 (evaluator_output_has_distinct_labelsets Fixtures.first_wins
                  promql.DefaultLookbackDelta 2 0 promql.Background
                  (Fixtures.handles_of
                     [Fixtures.backend
                        [Fixtures.sample_of Fixtures.up 1000 Fixtures.one] [];
                      Fixtures.backend
                        [Fixtures.sample_of Fixtures.up 1000 Fixtures.one] []]))
           1300 "up"%string
           (Fixtures.vector_result
              [Fixtures.sample_of Fixtures.up 1300 Fixtures.one])).
  vm_compute. reflexivity.
Defined.

(** ** The sample budget *)

Lemma TotalSamples_total_points (m : value.Matrix) :
  value.TotalSamples m = total_points m.
Proof.
  unfold value.TotalSamples.
  assert (H : forall n, fold_left
                          (fun n s => n + Z.of_nat (List.length (value.Points s))) m n
                        = n + total_points m).
  { induction m as [ | s m IH ]; intros n; simpl.
    - lia.
    - rewrite IH. lia. }
  rewrite H. lia.
Qed.

Lemma total_points_app (m1 m2 : value.Matrix) :
  total_points (m1 ++ m2) = total_points m1 + total_points m2.
Proof.
  induction m1 as [ | s m1 IH ]; simpl; [ reflexivity | rewrite IH; lia ].
Qed.

(** Every point added to a series is counted, and nothing else changes
    in the evaluator. *)
Lemma eval_steps_count LookbackDelta fuel :
  forall ev it ts pts pts' it' ev',
    promql.eval_steps LookbackDelta fuel ev it ts pts = Return (pts', it', ev') ->
    Z.of_nat (List.length pts')
    = Z.of_nat (List.length pts)
      + (promql.currentSamples ev' - promql.currentSamples ev)
    /\ promql.currentSamples ev <= promql.currentSamples ev'.
Proof.
  induction fuel as [ | k IH ]; intros ev it ts pts pts' it' ev' H;
    [ discriminate H | ].
  cbn [promql.eval_steps] in H.
  destruct (ts <=? promql.endTimestamp ev).
  - destruct (promql.vectorSelectorSingle LookbackDelta it ts)
      as [[[[t v] ok] it1] | e | ]; cbn [bind] in H; try discriminate H.
    destruct ok.
    + destruct (promql.currentSamples ev <? promql.maxSamples ev);
        [ | discriminate H ].
      apply IH in H. destruct H as (Hlen & Hle).
      rewrite length_app in Hlen. simpl in *. split; lia.
    + apply IH in H. exact H.
  - inversion H. subst. split; lia.
Qed.

(** One series under two budgets: the run under [n] goes as the run
    under the budget of [ev] as long as the count stays within [n], and
    panics when the count would pass [n]. *)
Lemma eval_steps_budget LookbackDelta n fuel :
  forall ev it ts pts pts' it' ev',
    promql.eval_steps LookbackDelta fuel ev it ts pts = Return (pts', it', ev') ->
    (promql.currentSamples ev' <= n ->
     promql.eval_steps LookbackDelta fuel (with_budget n ev) it ts pts
     = Return (pts', it', with_budget n ev'))
    /\ (promql.currentSamples ev <= n < promql.currentSamples ev' ->
        promql.eval_steps LookbackDelta fuel (with_budget n ev) it ts pts
        = Panic (ErrTooManySamples "query execution")).
Proof.
  induction fuel as [ | k IH ]; intros ev it ts pts pts' it' ev' H;
    [ discriminate H | ].
  cbn [promql.eval_steps] in H |- *.
  cbn [with_budget promql.endTimestamp promql.interval promql.currentSamples
         promql.maxSamples].
  destruct (ts <=? promql.endTimestamp ev).
  - destruct (promql.vectorSelectorSingle LookbackDelta it ts)
      as [[[[t v] ok] it1] | e | ]; cbn [bind] in H |- *; try discriminate H.
    destruct ok.
    + destruct (promql.currentSamples ev <? promql.maxSamples ev);
        [ | discriminate H ].
      pose proof (eval_steps_count _ _ _ _ _ _ _ _ _ H) as (_ & Hle).
      simpl in Hle.
      destruct (IH _ _ _ _ _ _ _ H) as [IH1 IH2]. simpl in IH1, IH2.
      split.
      * intros Hn. rewrite (proj2 (Z.ltb_lt _ _)) by lia. apply IH1. exact Hn.
      * intros Hn. destruct (promql.currentSamples ev <? n) eqn:Hlt.
        -- apply Z.ltb_lt in Hlt. apply IH2. lia.
        -- reflexivity.
    + apply (IH _ _ _ _ _ _ _ H).
  - inversion H. subst. split; [ reflexivity | lia ].
Qed.

Lemma eval_series_count LookbackDelta fuel numSteps series :
  forall ev it pool mat mat' ev',
    promql.eval_series LookbackDelta fuel ev it pool numSteps series mat
    = Return (mat', ev') ->
    total_points mat'
    = total_points mat + (promql.currentSamples ev' - promql.currentSamples ev)
    /\ promql.currentSamples ev <= promql.currentSamples ev'.
Proof.
  induction series as [ | s series IH ]; intros ev it pool mat mat' ev' H.
  - simpl in H. inversion H. subst. split; lia.
  - cbn [promql.eval_series] in H.
    destruct (promql.getPointSlice pool numSteps) as [[pts pool'] | e | ] eqn:Hget;
      cbn [bind] in H; try discriminate H.
    assert (Hpts : pts = []).
    { unfold promql.getPointSlice in Hget. destruct pool.
      - destruct (numSteps <? 0); [ discriminate Hget | ].
        inversion Hget. reflexivity.
      - inversion Hget. reflexivity. }
    subst pts.
    destruct (promql.eval_steps _ _ _ _ _ _) as [[[points it1] ev1] | e | ] eqn:Hsteps;
      cbn [bind] in H; try discriminate H.
    apply eval_steps_count in Hsteps. destruct Hsteps as (Hlen & Hle).
    apply IH in H. destruct H as [Htot Hle'].
    simpl in Hlen.
    destruct (0 <? List.length points)%nat eqn:Hpos.
    + rewrite total_points_app in Htot. simpl in Htot. split; lia.
    + apply Nat.ltb_ge in Hpos. split; lia.
Qed.

Lemma eval_series_budget LookbackDelta n fuel numSteps series :
  forall ev it pool mat mat' ev',
    promql.eval_series LookbackDelta fuel ev it pool numSteps series mat
    = Return (mat', ev') ->
    (promql.currentSamples ev' <= n ->
     promql.eval_series LookbackDelta fuel (with_budget n ev) it pool numSteps
       series mat
     = Return (mat', with_budget n ev'))
    /\ (promql.currentSamples ev <= n < promql.currentSamples ev' ->
        promql.eval_series LookbackDelta fuel (with_budget n ev) it pool numSteps
          series mat
        = Panic (ErrTooManySamples "query execution")).
Proof.
  induction series as [ | s series IH ]; intros ev it pool mat mat' ev' H.
  - simpl in H. inversion H. subst. split; [ reflexivity | lia ].
  - cbn [promql.eval_series] in H |- *.
    destruct (promql.getPointSlice pool numSteps) as [[pts pool'] | e | ];
      cbn [bind] in H |- *; try discriminate H.
    change (promql.startTimestamp (with_budget n ev))
      with (promql.startTimestamp ev).
    destruct (promql.eval_steps LookbackDelta fuel ev _ _ _)
      as [[[points it1] ev1] | e | ] eqn:Hsteps;
      cbn [bind] in H; try discriminate H.
    pose proof (eval_steps_count _ _ _ _ _ _ _ _ _ Hsteps) as (_ & Hle1).
    pose proof (eval_series_count _ _ _ _ _ _ _ _ _ _ H) as (_ & Hle2).
    destruct (eval_steps_budget _ n _ _ _ _ _ _ _ _ Hsteps) as [S1 S2].
    destruct (IH _ _ _ _ _ _ H) as [IH1 IH2].
    split.
    + intros Hn. rewrite S1 by lia. cbn [bind]. apply IH1. exact Hn.
    + intros Hn.
      destruct (Z_le_gt_dec (promql.currentSamples ev1) n) as [Hin | Hout].
      * rewrite S1 by lia. cbn [bind]. apply IH2. lia.
      * rewrite S2 by lia. reflexivity.
Qed.

Lemma eval_budget_exact LookbackDelta fuel pool ev series B N mat evB :
  0 <= N ->
  promql.currentSamples ev = 0 ->
  promql.eval_from LookbackDelta fuel pool (with_budget B ev) series
  = Return (mat, evB) ->
  (value.TotalSamples mat <= N ->
   promql.eval LookbackDelta fuel pool (with_budget N ev) series
   = Return (value.OfMatrix mat))
  /\ (N < value.TotalSamples mat ->
      promql.eval LookbackDelta fuel pool (with_budget N ev) series
      = Panic (ErrTooManySamples "query execution")).
Proof.
  intros HN Hzero H. unfold promql.eval, promql.eval_from in *.
  cbn [with_budget promql.interval promql.startTimestamp promql.endTimestamp]
    in H |- *.
  destruct (promql.interval ev =? 0); [ discriminate H | ].
  pose proof (eval_series_count _ _ _ _ _ _ _ _ _ _ H) as [Htot _].
  destruct (eval_series_budget _ N _ _ _ _ _ _ _ _ _ H) as [S1 S2].
  rewrite TotalSamples_total_points.
  change (with_budget N (with_budget B ev)) with (with_budget N ev) in S1, S2.
  cbn [with_budget promql.currentSamples] in Htot, S1, S2.
  rewrite Hzero in *. cbn [total_points fold_right] in Htot.
  split; intros Hn.
  - rewrite S1 by lia. reflexivity.
  - rewrite S2 by lia. reflexivity.
Qed.

Lemma exec_eq LookbackDelta fuel pool ctx q :
  promql.exec LookbackDelta fuel pool ctx q
  = match promql.gate_Start ctx with
    | Some err => Return (None, Some (promql.contextErr err "query queue"))
    | None =>
        series <- promql.populateSeries ctx (promql.queryable q) (promql.params q) ;;
        match series with
        | Fail err => Return (None, Some err)
        | OK series =>
            val <- promql.eval LookbackDelta fuel pool (evaluator_of q) series ;;
            finish ctx q val
        end
    end.
Proof.
  unfold promql.exec, evaluator_of, finish, is_instant.
  destruct (promql.gate_Start ctx); [ reflexivity | ].
  destruct (promql.populateSeries _ _ _) as [[series | e] | e | ]; try reflexivity.
  cbn [bind].
  destruct ((remote.Start (promql.params q) =? remote.End_ (promql.params q))
            && (remote.Step (promql.params q) =? 0));
    destruct (promql.eval _ _ _ _ _) as [[mat | | | ] | e | ]; reflexivity.
Qed.

(** C5: with [maxSamples = N], a query whose eligible points (the
    points of the matrix [mat] the evaluator builds of the fetched
    series under a budget [B] that is enough) number more than [N]
    fails with the [ErrTooManySamples] condition; one whose eligible
    points number at most [N] is evaluated to the whole of [mat], and
    the query returns what it returns under the budget [B]: the output
    is never cut down to the budget. *)
Theorem sample_budget_is_exact LookbackDelta fuel pool ctx q series B N mat evB :
  0 <= N ->
  promql.gate_Start ctx = None ->
  promql.populateSeries ctx (promql.queryable q) (promql.params q)
  = Return (OK series) ->
  promql.eval_from LookbackDelta fuel pool (evaluator_of (query_with_max B q)) series
  = Return (mat, evB) ->
  (N < value.TotalSamples mat ->
   promql.eval LookbackDelta fuel pool (evaluator_of (query_with_max N q)) series
   = Panic (ErrTooManySamples "query execution")
   /\ promql.Exec LookbackDelta fuel pool ctx (query_with_max N q)
      = Panic (ErrTooManySamples "query execution"))
  /\ (value.TotalSamples mat <= N ->
      promql.eval LookbackDelta fuel pool (evaluator_of (query_with_max N q)) series
      = Return (value.OfMatrix mat)
      /\ promql.Exec LookbackDelta fuel pool ctx (query_with_max N q)
         = promql.Exec LookbackDelta fuel pool ctx (query_with_max B q)).
Proof.
  intros HN Hgate Hpop HB.
  assert (Hev : forall n, evaluator_of (query_with_max n q)
                          = with_budget n (evaluator_of q)).
  { intros n. unfold evaluator_of, is_instant. simpl.
    destruct (_ && _); reflexivity. }
  assert (Hzero : promql.currentSamples (evaluator_of q) = 0).
  { unfold evaluator_of. destruct (is_instant q); reflexivity. }
  rewrite Hev in HB.
  destruct (eval_budget_exact _ _ _ _ _ _ _ _ _ HN Hzero HB) as [Hin Hout].
  assert (HevalB : promql.eval LookbackDelta fuel pool
                     (with_budget B (evaluator_of q)) series
                   = Return (value.OfMatrix mat)).
  { unfold promql.eval. rewrite HB. reflexivity. }
  unfold promql.Exec. rewrite !exec_eq. cbn [query_with_max promql.queryable promql.params].
  rewrite Hgate, Hpop. cbn [bind]. rewrite !Hev.
  split; intros Hn.
  - rewrite (Hout Hn). split; reflexivity.
  - rewrite (Hin Hn), HevalB. split; reflexivity.
Qed.

Lemma sample_budget_is_exact_witness :
  let q := Fixtures.query_with_budget 10
             [Fixtures.backend
                [Fixtures.sample_of Fixtures.up 1000 Fixtures.one;
                 Fixtures.sample_of Fixtures.down 1000 Fixtures.one]
                [] ]
             1000 1000 0 in
  promql.Exec promql.DefaultLookbackDelta 2 0 promql.Background (query_with_max 1 q)
  = Panic (ErrTooManySamples "query execution").
Proof.
  intros q.
  refine (proj2 (proj1 (sample_budget_is_exact promql.DefaultLookbackDelta 2 0
                   promql.Background q
                   [Fixtures.series_of Fixtures.down [(1000, Fixtures.one)];
                    Fixtures.series_of Fixtures.up [(1000, Fixtures.one)]]
                   10 1
                   [ {| value.Metric := Fixtures.down;
                        value.Points := [ {| value.T := 1000; value.V := Fixtures.one |} ] |};
                     {| value.Metric := Fixtures.up;
                        value.Points := [ {| value.T := 1000; value.V := Fixtures.one |} ] |} ]
                   _ _ _ _ _) _)).
  - lia.
  - reflexivity.
  - reflexivity.
  - vm_compute. reflexivity.
  - vm_compute. reflexivity.
Defined.

(** ** The duplicate check of [value]

    [ContainsSameLabelset] compares hashes: a vector or matrix it
    clears has no two entries with the same label set. *)

Section DuplicateCheck.
Variable Hash : labels.Labels -> Z.

Lemma existsb_eqb_false (h : Z) (l : list Z) :
  existsb (Z.eqb h) l = false -> ~ In h l.
Proof.
  intros H Hin. assert (Ht : existsb (Z.eqb h) l = true).
  { apply existsb_exists. exists h. split; [ exact Hin | apply Z.eqb_refl ]. }
  congruence.
Qed.

Lemma Vector_loop_false (vec : value.Vector) :
  forall l,
    value.Vector_ContainsSameLabelset_loop Hash vec l = false ->
    NoDup (map Hash (map value.SampleMetric vec))
    /\ forall h, In h (map Hash (map value.SampleMetric vec)) -> ~ In h l.
Proof.
  induction vec as [ | s vec IH ]; intros l H; simpl in H |- *.
  - split; [ constructor | intros h [] ].
  - destruct (existsb _ l) eqn:E; [ discriminate H | ].
    apply IH in H. destruct H as [Hnd Hout].
    split.
    + constructor; [ | exact Hnd ].
      intros Hin. apply (Hout _ Hin). left. reflexivity.
    + intros h [<- | Hin].
      * apply existsb_eqb_false. exact E.
      * intros Hl. apply (Hout _ Hin). right. exact Hl.
Qed.

Lemma Matrix_loop_false (m : value.Matrix) :
  forall l,
    value.Matrix_ContainsSameLabelset_loop Hash m l = false ->
    NoDup (map Hash (map value.Metric m))
    /\ forall h, In h (map Hash (map value.Metric m)) -> ~ In h l.
Proof.
  induction m as [ | s m IH ]; intros l H; simpl in H |- *.
  - split; [ constructor | intros h [] ].
  - destruct (existsb _ l) eqn:E; [ discriminate H | ].
    apply IH in H. destruct H as [Hnd Hout].
    split.
    + constructor; [ | exact Hnd ].
      intros Hin. apply (Hout _ Hin). left. reflexivity.
    + intros h [<- | Hin].
      * apply existsb_eqb_false. exact E.
      * intros Hl. apply (Hout _ Hin). right. exact Hl.
Qed.

Lemma ContainsSameLabelset_sound (v : value.Value) :
  match v with
  | value.OfVector vec => value.Vector_ContainsSameLabelset Hash vec = false
  | value.OfMatrix m => value.Matrix_ContainsSameLabelset Hash m = false
  | _ => True
  end ->
  distinct_labelsets v.
Proof.
  destruct v as [m | vec | | ]; simpl; intros H; try exact I.
  - apply Matrix_loop_false in H. apply (NoDup_map_inv Hash). apply H.
  - apply Vector_loop_false in H. apply (NoDup_map_inv Hash). apply H.
Qed.
End DuplicateCheck.

(** ** The sampling rule on an ascending series *)

Lemma PeekBack_1_spec b :
  buffered_prefix b ->
  let c := remote.it b in
  let p := Z.min (remote.cur c) (remote.len_samples c) in
  remote.PeekBack 1 b
  = if 1 <=? p
    then Some (prompb.Timestamp (remote.sample_at c (p - 1)),
               prompb.Value (remote.sample_at c (p - 1)))
    else None.
Proof.
  intros [Hcur Hbuf] c p. unfold remote.PeekBack. cbn [Z.leb Z.compare].
  rewrite Hbuf. fold c.
  set (l := remote.samples (remote.series c)).
  set (n := Z.to_nat (remote.cur c)).
  assert (Hlen : List.length (firstn n l) = Z.to_nat p).
  { rewrite length_firstn. unfold p, n, remote.len_samples. fold l. lia. }
  destruct (1 <=? p) eqn:Hp.
  - apply Z.leb_le in Hp.
    rewrite (nth_error_nth' _ prompb.zero) by (rewrite length_rev; lia).
    rewrite rev_nth by lia. rewrite nth_firstn.
    replace (List.length (firstn n l) - S (Z.to_nat (1 - 1)))%nat
      with (Z.to_nat (p - 1)) by lia.
    assert (Hlt : (Z.to_nat (p - 1) <? n)%nat = true).
    { apply Nat.ltb_lt. unfold p, n. lia. }
    rewrite Hlt. reflexivity.
  - apply Z.leb_gt in Hp.
    destruct (firstn n l) as [ | x xs ]; [ reflexivity | simpl in Hlen; lia ].
Qed.

Lemma In_sample_at (s : remote.concreteSeries) (smp : prompb.Sample) :
  In smp (remote.samples s) ->
  exists i, 0 <= i < Z.of_nat (List.length (remote.samples s))
            /\ nth (Z.to_nat i) (remote.samples s) prompb.zero = smp.
Proof.
  intros Hin. destruct (In_nth _ _ prompb.zero Hin) as (n & Hn & Hnth).
  exists (Z.of_nat n). split; [ lia | ]. rewrite Nat2Z.id. exact Hnth.
Qed.

Lemma ascending_le (s : remote.concreteSeries) (i j : Z) :
  ascending s ->
  0 <= i <= j -> j < Z.of_nat (List.length (remote.samples s)) ->
  prompb.Timestamp (nth (Z.to_nat i) (remote.samples s) prompb.zero)
  <= prompb.Timestamp (nth (Z.to_nat j) (remote.samples s) prompb.zero).
Proof.
  intros Hasc Hij Hj. destruct (Z.eq_dec i j) as [-> | Hne]; [ lia | ].
  apply Z.lt_le_incl. apply Hasc. lia.
Qed.

Lemma ascending_unique (s : remote.concreteSeries) (i j : Z) :
  ascending s ->
  0 <= i < Z.of_nat (List.length (remote.samples s)) ->
  0 <= j < Z.of_nat (List.length (remote.samples s)) ->
  prompb.Timestamp (nth (Z.to_nat i) (remote.samples s) prompb.zero)
  = prompb.Timestamp (nth (Z.to_nat j) (remote.samples s) prompb.zero) ->
  i = j.
Proof.
  intros Hasc Hi Hj Heq.
  destruct (Z.lt_trichotomy i j) as [Hlt | [-> | Hgt]]; [ | reflexivity | ].
  - pose proof (Hasc (Z.to_nat i) (Z.to_nat j)) as H. lia.
  - pose proof (Hasc (Z.to_nat j) (Z.to_nat i)) as H. lia.
Qed.

Lemma checked_cases t v b :
  (value.IsStaleNaN v = true /\ checked t v b = Return (nothing, b))
  \/ (value.IsStaleNaN v = false /\ checked t v b = Return (t, v, true, b)).
Proof.
  unfold checked, nothing. destruct (value.IsStaleNaN v); [ left | right ];
    split; reflexivity.
Qed.

(** On a series whose timestamps ascend, from a buffer that has only
    left older samples behind, the rule at [T] returns the most recent
    sample at or before [T] if that sample lies in the lookback window
    and is not stale, and nothing otherwise: no interpolation, no
    older sample in place of a stale or too old one. *)
Lemma sampling_rule_on_ascending_series LookbackDelta b T :
  let s := remote.series (remote.it b) in
  ascending s ->
  buffered_prefix b ->
  behind T b ->
  0 <= promql.durationSeconds LookbackDelta ->
  Int64.in_range (T - promql.durationSeconds LookbackDelta) ->
  exists r b1,
    promql.vectorSelectorSingle LookbackDelta b T = Return (r, b1)
    /\ buffered_prefix b1
    /\ remote.series (remote.it b1) = s
    /\ (forall T', T <= T' -> behind T' b1)
    /\ ((exists smp, r = selected smp
                     /\ latest_at_or_before T s smp
                     /\ eligible LookbackDelta T smp)
        \/ (r = nothing
            /\ forall smp, latest_at_or_before T s smp ->
                           ~ eligible LookbackDelta T smp)).
Proof.
  intros s Hasc Hb Hbehind Hw Hrange.
  destruct (Seek_spec T b Hb) as (ok & b1 & Hseek & Hto).
  destruct Hto as (Hb1 & Hseries & _ & Hle & Hlt & Hok).
  fold s in Hseries.
  set (l := remote.samples s).
  set (len := Z.of_nat (List.length l)).
  set (p := remote.cur (remote.it b1)) in *.
  assert (Hlen : remote.len_samples (remote.it b) = len) by reflexivity.
  assert (Hlen1 : remote.len_samples (remote.it b1) = len).
  { unfold remote.len_samples. rewrite Hseries. reflexivity. }
  assert (Hat : forall i, remote.sample_at (remote.it b) i = nth (Z.to_nat i) l prompb.zero)
    by reflexivity.
  assert (Hat1 : forall i, remote.sample_at (remote.it b1) i
                           = nth (Z.to_nat i) l prompb.zero).
  { intros i. unfold remote.sample_at. rewrite Hseries. reflexivity. }
  assert (Hbefore : forall i, 0 <= i < p -> i < len ->
                              prompb.Timestamp (nth (Z.to_nat i) l prompb.zero) < T).
  { intros i Hi Hil. rewrite <- Hat.
    destruct (Z_lt_ge_dec i (remote.cur (remote.it b))) as [Hlow | Hhigh].
    - apply Hbehind; [ lia | rewrite Hlen; exact Hil ].
    - apply Hlt; [ lia | lia | rewrite Hlen; exact Hil ]. }
  assert (Hbehind1 : forall T', T <= T' -> behind T' b1).
  { intros T' HT i Hi Hil. rewrite Hat1. rewrite Hlen1 in Hil.
    specialize (Hbefore i Hi Hil). lia. }
  assert (Heta : forall x : prompb.Sample,
             {| prompb.Value := prompb.Value x; prompb.Timestamp := prompb.Timestamp x |}
             = x) by (intros [? ?]; reflexivity).
  (* The fallback, shared by a failed seek and a seek past [T]. *)
  assert (Hfall : forall q,
             q = Z.min p len ->
             (forall j, 0 <= j < len ->
                        prompb.Timestamp (nth (Z.to_nat j) l prompb.zero) <= T ->
                        j < q) ->
             exists r,
               fall_back LookbackDelta T b1 = Return (r, b1)
               /\ ((exists smp, r = selected smp
                                /\ latest_at_or_before T s smp
                                /\ eligible LookbackDelta T smp)
                   \/ (r = nothing
                       /\ forall smp, latest_at_or_before T s smp ->
                                      ~ eligible LookbackDelta T smp))).
  { intros q Hq Hupper. unfold fall_back.
    rewrite (PeekBack_1_spec b1 Hb1). cbv zeta. fold p. rewrite Hlen1, <- Hq, Hat1.
    destruct (1 <=? q) eqn:Hq1.
    - apply Z.leb_le in Hq1.
      set (c0 := nth (Z.to_nat (q - 1)) l prompb.zero).
      assert (Hc0in : In c0 l) by (apply nth_In; lia).
      assert (Hc0T : prompb.Timestamp c0 < T) by (apply Hbefore; lia).
      assert (Hmax : forall smp', In smp' l -> prompb.Timestamp smp' <= T ->
                                  prompb.Timestamp smp' <= prompb.Timestamp c0).
      { intros smp' Hin HT.
        destruct (In_sample_at s smp' Hin) as (j & Hj & <-).
        apply ascending_le; [ exact Hasc | | fold l; lia ].
        specialize (Hupper j Hj HT). lia. }
      assert (Hsame : forall smp, latest_at_or_before T s smp -> smp = c0).
      { intros smp (Hin & HT & Hbest).
        pose proof (Hmax smp Hin HT) as H1.
        pose proof (Hbest c0 Hc0in (Z.lt_le_incl _ _ Hc0T)) as H2.
        destruct (In_sample_at s smp Hin) as (j & Hj & <-).
        assert (j = q - 1); [ | subst j; reflexivity ].
        apply (ascending_unique s); try assumption; fold l; fold len; try lia.
        unfold c0, l in *. lia. }
      unfold Int64.sub. rewrite (wrap_in_range _ Hrange).
      destruct (prompb.Timestamp c0 <? T - _) eqn:Hold.
      + apply Z.ltb_lt in Hold. exists nothing. split; [ reflexivity | ]. right.
        split; [ reflexivity | ].
        intros smp Hlatest [Hin _]. rewrite (Hsame smp Hlatest) in Hin. lia.
      + apply Z.ltb_ge in Hold.
        destruct (checked_cases (prompb.Timestamp c0) (prompb.Value c0) b1)
          as [[Hst ->] | [Hst ->]].
        * exists nothing. split; [ reflexivity | ]. right. split; [ reflexivity | ].
          intros smp Hlatest [_ Hns]. rewrite (Hsame smp Hlatest) in Hns. congruence.
        * exists (selected c0). split; [ reflexivity | ]. left.
          exists c0. split; [ reflexivity | ]. split.
          -- split; [ exact Hc0in | ]. split; [ lia | exact Hmax ].
          -- split; assumption.
    - apply Z.leb_gt in Hq1. exists nothing. split; [ reflexivity | ]. right.
      split; [ reflexivity | ].
      intros smp (Hin & HT & _) _.
      destruct (In_sample_at s smp Hin) as (j & Hj & <-).
      specialize (Hupper j Hj HT). lia. }
  rewrite vectorSelectorSingle_eq, Hseek. cbn [bind].
  destruct ok.
  - destruct Hok as [Hpos Hge]. rewrite Hat1 in Hge.
    apply positioned_iff in Hpos. rewrite Hlen1 in Hpos. fold p in Hpos.
    unfold remote.Values.
    rewrite concrete_At_positioned by (apply positioned_iff; rewrite Hlen1; exact Hpos).
    cbn [bind]. fold p. rewrite Hat1.
    set (cp := nth (Z.to_nat p) l prompb.zero) in *.
    assert (Hafter : forall j, 0 <= j < len -> p <= j ->
                               prompb.Timestamp cp
                               <= prompb.Timestamp (nth (Z.to_nat j) l prompb.zero)).
    { intros j Hj Hpj. apply ascending_le; [ exact Hasc | lia | fold l; lia ]. }
    destruct (prompb.Timestamp cp >? T) eqn:Hgt.
    + rewrite Z.gtb_ltb in Hgt. apply Z.ltb_lt in Hgt.
      destruct (Hfall p) as (r & -> & Hr).
      * lia.
      * intros j Hj HT. destruct (Z_lt_ge_dec j p) as [ | Hjp ]; [ assumption | ].
        specialize (Hafter j Hj ltac:(lia)). lia.
      * exists r, b1. split; [ reflexivity | split; [ exact Hb1 | split; [ exact Hseries | split; [ exact Hbehind1 | ] ] ] ]. exact Hr.
    + rewrite Z.gtb_ltb in Hgt. apply Z.ltb_ge in Hgt.
      assert (HcpT : prompb.Timestamp cp = T) by lia.
      assert (Hcpin : In cp l) by (apply nth_In; lia).
      destruct (checked_cases (prompb.Timestamp cp) (prompb.Value cp) b1)
        as [[Hst ->] | [Hst ->]].
      * exists nothing, b1. split; [ reflexivity | split; [ exact Hb1 | split; [ exact Hseries | split; [ exact Hbehind1 | ] ] ] ]. right.
        split; [ reflexivity | ].
        intros smp (Hin & HT & Hbest) [_ Hns].
        pose proof (Hbest cp Hcpin ltac:(lia)) as H2.
        destruct (In_sample_at s smp Hin) as (j & Hj & <-).
        assert (j = p); [ | subst j; fold l in Hns; fold cp in Hns; congruence ].
        apply (ascending_unique s); try assumption; fold l; fold len; try lia.
        unfold cp, l in *. lia.
      * exists (selected cp), b1. split; [ reflexivity | split; [ exact Hb1 | split; [ exact Hseries | split; [ exact Hbehind1 | ] ] ] ]. left.
        exists cp. split; [ reflexivity | ]. split.
        -- split; [ exact Hcpin | ]. split; [ lia | ].
           intros smp' _ HT. lia.
        -- split; [ lia | exact Hst ].
  - rewrite Hlen in Hok. fold p in Hok.
    destruct (Hfall len) as (r & -> & Hr).
    + lia.
    + intros j Hj _. lia.
    + exists r, b1. split; [ reflexivity | split; [ exact Hb1 | split; [ exact Hseries | split; [ exact Hbehind1 | ] ] ] ]. exact Hr.
Qed.

(** ** Where evaluation is total: a positive step *)



Lemma eval_steps_fields LookbackDelta fuel :
  forall ev it ts pts pts' it' ev',
    promql.eval_steps LookbackDelta fuel ev it ts pts = Return (pts', it', ev') ->
    promql.startTimestamp ev' = promql.startTimestamp ev
    /\ promql.endTimestamp ev' = promql.endTimestamp ev
    /\ promql.interval ev' = promql.interval ev
    /\ promql.maxSamples ev' = promql.maxSamples ev.
Proof.
  induction fuel as [ | k IH ]; intros ev it ts pts pts' it' ev' H;
    [ discriminate H | ].
  cbn [promql.eval_steps] in H.
  destruct (ts <=? promql.endTimestamp ev).
  - destruct (promql.vectorSelectorSingle LookbackDelta it ts)
      as [[[[t v] ok] it1] | e | ]; cbn [bind] in H; try discriminate H.
    destruct ok.
    + destruct (promql.currentSamples ev <? promql.maxSamples ev);
        [ | discriminate H ].
      apply IH in H. simpl in H. exact H.
    + apply IH in H. exact H.
  - inversion H. subst. repeat split.
Qed.



(** The lookback window is closed at both ends: a series with the
    single real sample (t0, v) answers the rule at [T] exactly when
    [T - 300 <= t0 <= T]. *)
Lemma lookback_window_closed (t0 : Z) (v : value.float64) (T : Z) :
  value.IsStaleNaN v = false ->
  Int64.in_range (T - 300) ->
  exists b1,
    promql.vectorSelectorSingle promql.DefaultLookbackDelta
      (Fixtures.fresh promql.DefaultLookbackDelta
         (Fixtures.series_of Fixtures.up [(t0, v)])) T
    = Return (if (T - 300 <=? t0) && (t0 <=? T) then (t0, v, true) else nothing, b1).
Proof.
  intros Hv Hrange.
  set (s := Fixtures.series_of Fixtures.up [(t0, v)]).
  set (b := Fixtures.fresh promql.DefaultLookbackDelta s).
  set (smp0 := {| prompb.Value := v; prompb.Timestamp := t0 |}).
  assert (Hasc : ascending (remote.series (remote.it b))).
  { intros i j Hij. simpl in Hij. lia. }
  assert (Hb : buffered_prefix b) by (split; [ simpl; lia | reflexivity ]).
  assert (Hbehind : behind T b).
  { intros i Hi _. simpl in Hi. lia. }
  destruct (sampling_rule_on_ascending_series promql.DefaultLookbackDelta b T
              Hasc Hb Hbehind)
    as (r & b1 & Hrun & _ & _ & _ & Hr).
  { rewrite durationSeconds_default. lia. }
  { rewrite durationSeconds_default. exact Hrange. }
  exists b1. rewrite Hrun. f_equal. f_equal.
  destruct Hr as [(smp & -> & (Hin & HT & _) & (Hw & _)) | (-> & Hnone)].
  - destruct Hin as [<- | []]. rewrite durationSeconds_default in Hw.
    simpl in HT, Hw.
    rewrite (proj2 (Z.leb_le _ _) Hw), (proj2 (Z.leb_le _ _) HT). reflexivity.
  - destruct ((T - 300 <=? t0) && (t0 <=? T)) eqn:Hin; [ | reflexivity ].
    apply andb_true_iff in Hin. destruct Hin as [Hw HT].
    apply Z.leb_le in Hw. apply Z.leb_le in HT.
    exfalso. apply (Hnone smp0).
    + split; [ left; reflexivity | ]. split; [ exact HT | ].
      intros smp' [<- | []] _. simpl. lia.
    + split; [ rewrite durationSeconds_default; exact Hw | exact Hv ].
Qed.

(** * Further properties of the code *)

(** ** [value]: the duplicate check, the sample count, the accessors *)

Section DuplicateCheckExact.
Variable Hash : labels.Labels -> Z.

Lemma existsb_eqb_true (h : Z) (l : list Z) :
  existsb (Z.eqb h) l = true -> In h l.
Proof.
  intros H. apply existsb_exists in H. destruct H as (x & Hin & Heq).
  apply Z.eqb_eq in Heq. subst x. exact Hin.
Qed.

Lemma Vector_loop_NoDup (vec : value.Vector) :
  forall l,
    NoDup (map Hash (map value.SampleMetric vec)) ->
    (forall h, In h (map Hash (map value.SampleMetric vec)) -> ~ In h l) ->
    value.Vector_ContainsSameLabelset_loop Hash vec l = false.
Proof.
  induction vec as [ | s vec IH ]; intros l Hnd Hout; simpl in *.
  - reflexivity.
  - inversion Hnd as [ | h hs Hnotin Hnd' ]. subst.
    destruct (existsb _ l) eqn:E.
    + exfalso. apply (Hout (Hash (value.SampleMetric s))).
      * left. reflexivity.
      * apply existsb_eqb_true. exact E.
    + apply IH; [ exact Hnd' | ].
      intros h Hin [<- | Hl]; [ exact (Hnotin Hin) | ].
      apply (Hout h); [ right; exact Hin | exact Hl ].
Qed.

Lemma Matrix_loop_NoDup (m : value.Matrix) :
  forall l,
    NoDup (map Hash (map value.Metric m)) ->
    (forall h, In h (map Hash (map value.Metric m)) -> ~ In h l) ->
    value.Matrix_ContainsSameLabelset_loop Hash m l = false.
Proof.
  induction m as [ | s m IH ]; intros l Hnd Hout; simpl in *.
  - reflexivity.
  - inversion Hnd as [ | h hs Hnotin Hnd' ]. subst.
    destruct (existsb _ l) eqn:E.
    + exfalso. apply (Hout (Hash (value.Metric s))).
      * left. reflexivity.
      * apply existsb_eqb_true. exact E.
    + apply IH; [ exact Hnd' | ].
      intros h Hin [<- | Hl]; [ exact (Hnotin Hin) | ].
      apply (Hout h); [ right; exact Hin | exact Hl ].
Qed.

(** X1: [ContainsSameLabelset] answers false exactly when the hashes of
    the metrics are pairwise distinct, for a vector and for a matrix;
    so two entries with the same label set are always reported, and a
    report on distinct label sets can only come from a hash collision. *)
Theorem ContainsSameLabelset_exact :
  (forall vec,
      value.Vector_ContainsSameLabelset Hash vec = false
      <-> NoDup (map Hash (map value.SampleMetric vec)))
  /\ (forall m,
         value.Matrix_ContainsSameLabelset Hash m = false
         <-> NoDup (map Hash (map value.Metric m)))
  /\ (forall vec,
         ~ NoDup (map value.SampleMetric vec) ->
         value.Vector_ContainsSameLabelset Hash vec = true)
  /\ (forall m,
         ~ NoDup (map value.Metric m) ->
         value.Matrix_ContainsSameLabelset Hash m = true).
Proof.
  assert (HV : forall vec,
             value.Vector_ContainsSameLabelset Hash vec = false
             <-> NoDup (map Hash (map value.SampleMetric vec))).
  { intros vec. split.
    - intros H. apply (Vector_loop_false Hash) in H. apply H.
    - intros H. apply Vector_loop_NoDup; [ exact H | intros h _ [] ]. }
  assert (HM : forall m,
             value.Matrix_ContainsSameLabelset Hash m = false
             <-> NoDup (map Hash (map value.Metric m))).
  { intros m. split.
    - intros H. apply (Matrix_loop_false Hash) in H. apply H.
    - intros H. apply Matrix_loop_NoDup; [ exact H | intros h _ [] ]. }
  split; [ exact HV | ]. split; [ exact HM | ]. split.
  - intros vec Hdup.
    destruct (value.Vector_ContainsSameLabelset Hash vec) eqn:E; [ reflexivity | ].
    exfalso. apply Hdup. apply (NoDup_map_inv Hash). apply HV. exact E.
  - intros m Hdup.
    destruct (value.Matrix_ContainsSameLabelset Hash m) eqn:E; [ reflexivity | ].
    exfalso. apply Hdup. apply (NoDup_map_inv Hash). apply HM. exact E.
Qed.
End DuplicateCheckExact.

Lemma total_points_Permutation (m m' : value.Matrix) :
  Permutation m m' -> total_points m = total_points m'.
Proof.
  induction 1; simpl; lia.
Qed.

Lemma total_points_nonneg (m : value.Matrix) : 0 <= total_points m.
Proof. induction m as [ | s m IH ]; simpl; lia. Qed.

(** X2: [TotalSamples] is the sum of the lengths of the series: it adds
    up over concatenation, is never negative, is the same for any
    rearrangement of the matrix, and so is not changed by the
    [sort.Sort] that [exec] applies to the matrix of a range query. *)
Theorem TotalSamples_additive_and_order_free :
  (forall m1 m2,
      value.TotalSamples (m1 ++ m2) = value.TotalSamples m1 + value.TotalSamples m2)
  /\ (forall m, 0 <= value.TotalSamples m)
  /\ (forall m m', Permutation m m' -> value.TotalSamples m = value.TotalSamples m')
  /\ (forall m, value.TotalSamples (sort.Sort value.Matrix_Less m)
                = value.TotalSamples m)
  /\ (forall m, value.TotalSamples m = 0
                <-> Forall (fun s => value.Points s = []) m).
Proof.
  split; [ | split; [ | split; [ | split ] ] ].
  - intros m1 m2. rewrite !TotalSamples_total_points. apply total_points_app.
  - intros m. rewrite TotalSamples_total_points. apply total_points_nonneg.
  - intros m m' H. rewrite !TotalSamples_total_points.
    apply total_points_Permutation. exact H.
  - intros m. rewrite !TotalSamples_total_points.
    apply total_points_Permutation. apply Sort_Permutation.
  - intros m. rewrite TotalSamples_total_points.
    induction m as [ | s m IH ]; simpl.
    + split; [ constructor | reflexivity ].
    + pose proof (total_points_nonneg m) as Hm. split.
      * intros H. constructor.
        -- apply length_zero_iff_nil. lia.
        -- apply IH. lia.
      * intros H. inversion H as [ | x xs Hs Hrest ]. subst.
        rewrite Hs. simpl. apply IH in Hrest. lia.
Qed.

(** X3: the typed accessors of [Result].  A stored error comes first,
    whatever is asked for; without one, the accessor of the stored
    variant returns the stored value and the two others fail with
    their own type-mismatch error, so at most one of the three
    accessors succeeds on a result. *)
Theorem Result_accessors_error_first_then_type :
  (forall r e,
      value.Err r = Some e ->
      value.Result_Vector r = ([], Some e)
      /\ value.Result_Matrix r = ([], Some e)
      /\ snd (value.Result_Scalar r) = Some e)
  /\ (forall val vec,
         value.Result_Vector {| value.Err := None; value.Value_ := val |} = (vec, None)
         <-> val = Some (value.OfVector vec))
  /\ (forall val m,
         value.Result_Matrix {| value.Err := None; value.Value_ := val |} = (m, None)
         <-> val = Some (value.OfMatrix m))
  /\ (forall val t v,
         value.Result_Scalar {| value.Err := None; value.Value_ := val |} = ((t, v), None)
         <-> val = Some (value.OfScalar t v))
  /\ (forall r,
         (snd (value.Result_Vector r) = None -> snd (value.Result_Matrix r) <> None
                                                /\ snd (value.Result_Scalar r) <> None)
         /\ (snd (value.Result_Matrix r) = None -> snd (value.Result_Scalar r) <> None)).
Proof.
  split; [ | split; [ | split; [ | split ] ] ].
  - intros r e H. unfold value.Result_Vector, value.Result_Matrix, value.Result_Scalar.
    rewrite H. repeat split.
  - intros val vec. unfold value.Result_Vector. simpl.
    destruct val as [[ | | | ] | ]; split; intros H; inversion H; reflexivity.
  - intros val m. unfold value.Result_Matrix. simpl.
    destruct val as [[ | | | ] | ]; split; intros H; inversion H; reflexivity.
  - intros val t v. unfold value.Result_Scalar. simpl.
    destruct val as [[ | | | ] | ]; split; intros H; inversion H; reflexivity.
  - intros [err val]. unfold value.Result_Vector, value.Result_Matrix, value.Result_Scalar.
    simpl. destruct err; [ split; intros H; discriminate H | ].
    destruct val as [[ | | | ] | ]; simpl; split; intros H;
      try discriminate H; try split; discriminate.
Qed.

(** ** [promql]: what [exec] returns *)

Lemma exec_shape LookbackDelta fuel pool ctx q v e :
  promql.exec LookbackDelta fuel pool ctx q = Return (v, e) ->
  (v = None /\ exists err, e = Some err)
  \/ (e = None
      /\ if is_instant q
         then exists vec, v = Some (value.OfVector vec)
         else exists m, v = Some (value.OfMatrix m)).
Proof.
  rewrite exec_eq.
  destruct (promql.gate_Start ctx) as [err | ].
  { intros H. inversion H. left. split; [ reflexivity | eexists; reflexivity ]. }
  destruct (promql.populateSeries _ _ _) as [[series | err] | err | ];
    cbn [bind]; try discriminate.
  2: { intros H. inversion H. left. split; [ reflexivity | eexists; reflexivity ]. }
  destruct (promql.eval _ _ _ _ _) as [[mat | | | ] | err | ];
    cbn [bind finish]; try discriminate.
  destruct (is_instant q).
  - destruct (promql.to_vector _ _) as [vec | err | ]; cbn [bind]; try discriminate.
    intros H. inversion H. right. split; [ reflexivity | eexists; reflexivity ].
  - destruct (promql.contextDone ctx _) as [err | ]; intros H; inversion H.
    + left. split; [ reflexivity | eexists; reflexivity ].
    + right. split; [ reflexivity | eexists; reflexivity ].
Qed.

(** X4: the [Result] that [Exec] returns carries either an error and
    no value, or no error and a value: a [Vector] when the query is an
    instant one (start = end and step = 0) and a [Matrix] otherwise.
    So [Vector()] succeeds on every error-free instant result and
    [Matrix()] on every error-free range result, and the branch of the
    API that reads [res.Value.Type()] never meets a nil value. *)
Theorem Exec_result_has_error_or_value LookbackDelta fuel pool ctx q res :
  promql.Exec LookbackDelta fuel pool ctx q = Return res ->
  (value.Err res = None <-> value.Value_ res <> None)
  /\ (value.Err res = None ->
      if is_instant q
      then exists vec, value.Result_Vector res = (vec, None)
      else exists m, value.Result_Matrix res = (m, None))
  /\ (exists r, api.respond res = Return r).
Proof.
  unfold promql.Exec.
  destruct (promql.exec _ _ _ _ _) as [[v e] | err | ] eqn:Hexec;
    cbn [bind]; try discriminate.
  intros H. inversion H. subst res. clear H. simpl.
  apply exec_shape in Hexec.
  destruct Hexec as [[-> [err ->]] | [-> Hkind]].
  - split; [ split; [ discriminate | intros H; congruence ] | ].
    split; [ discriminate | ].
    unfold api.respond. simpl. eexists. reflexivity.
  - destruct (is_instant q).
    + destruct Hkind as [vec ->].
      split; [ split; [ discriminate | reflexivity ] | ].
      split; [ intros _; exists vec; reflexivity | ].
      unfold api.respond. simpl. eexists. reflexivity.
    + destruct Hkind as [m ->].
      split; [ split; [ discriminate | reflexivity ] | ].
      split; [ intros _; exists m; reflexivity | ].
      unfold api.respond. simpl. eexists. reflexivity.
Qed.

Lemma Exec_result_has_error_or_value_witness :
  let res :=
    {| value.Err := None;
       value.Value_ :=
         Some (value.OfVector [Fixtures.sample_of Fixtures.up 1300 Fixtures.one]) |} in
  (value.Err res = None <-> value.Value_ res <> None)
  /\ (value.Err res = None -> exists vec, value.Result_Vector res = (vec, None))
  /\ (exists r, api.respond res = Return r).
Proof.
  intros res.
  apply (Exec_result_has_error_or_value promql.DefaultLookbackDelta 2 0
           promql.Background
           (Fixtures.query_with_budget 10
              [Fixtures.backend
                 [Fixtures.sample_of Fixtures.up 1000 Fixtures.one] []]
              1300 1300 0)
           res).
  reflexivity.
Defined.

(** X5: what the two public operations return on success.  [Query]
    always answers with status "success" and a vector; [QueryRange]
    answers with a vector when start = end and step = 0 (the instant
    branch of [exec]) and with a matrix otherwise; the result type
    always names the variant of the result. *)
Theorem api_result_types
  (mergeSamples : list (list prompb.Sample) -> list prompb.Sample)
  (LookbackDelta : Z) (fuel pool : nat) (ctx : promql.Context) (h : api.handles) :
  (forall now query r,
      api.Query mergeSamples LookbackDelta fuel pool ctx h now query = Return (OK r) ->
      api.Status r = "success"%string
      /\ api.ResultType (api.Data r) = value.ValueTypeVector
      /\ exists vec, api.Result (api.Data r) = value.OfVector vec)
  /\ (forall query startTs endTs step r,
         api.QueryRange mergeSamples LookbackDelta fuel pool ctx h
           query startTs endTs step = Return (OK r) ->
         api.Status r = "success"%string
         /\ api.ResultType (api.Data r) = value.Type_ (api.Result (api.Data r))
         /\ if (startTs =? endTs) && (step =? 0)
            then exists vec, api.Result (api.Data r) = value.OfVector vec
            else exists m, api.Result (api.Data r) = value.OfMatrix m).
Proof.
  assert (Hgen : forall qs startTs endTs step r,
             (res <- promql.Exec LookbackDelta fuel pool ctx
                       (promql.NewQuery (api.queryEngine h)
                          (remote.Reader_Querier mergeSamples (api.remoteReader h))
                          qs startTs endTs step) ;;
              api.respond res) = Return (OK r) ->
             api.Status r = "success"%string
             /\ api.ResultType (api.Data r) = value.Type_ (api.Result (api.Data r))
             /\ if (startTs =? endTs) && (step =? 0)
                then exists vec, api.Result (api.Data r) = value.OfVector vec
                else exists m, api.Result (api.Data r) = value.OfMatrix m).
  { intros qs startTs endTs step r. unfold promql.Exec.
    destruct (promql.exec _ _ _ _ _) as [[v e] | err | ] eqn:Hexec;
      cbn [bind]; try discriminate.
    apply exec_shape in Hexec. unfold is_instant in Hexec. simpl in Hexec.
    unfold api.respond. simpl.
    destruct Hexec as [[-> [err ->]] | [-> Hkind]]; [ discriminate | ].
    destruct ((startTs =? endTs) && (step =? 0)).
    - destruct Hkind as [vec ->]. intros H. inversion H. simpl.
      repeat split. exists vec. reflexivity.
    - destruct Hkind as [m ->]. intros H. inversion H. simpl.
      repeat split. exists m. reflexivity. }
  split.
  - intros now query r H. apply Hgen in H. rewrite Z.eqb_refl in H. simpl in H.
    destruct H as (Hs & Ht & vec & Hv). rewrite Ht, Hv.
    repeat split; [ exact Hs | ]. exists vec. reflexivity.
  - intros query startTs endTs step r H. apply Hgen in H. exact H.
Qed.

(** ** [promql]: the context and the phases of a query *)

Lemma expand_loop_ctx (ctx ctx' : promql.Context) :
  ctx promql.Fetching = ctx' promql.Fetching ->
  forall turns it res,
    promql.expand_loop turns ctx it res = promql.expand_loop turns ctx' it res.
Proof.
  intros Hctx. induction turns as [ | k IH ]; intros it res; [ reflexivity | ].
  cbn [promql.expand_loop].
  destruct (remote.SeriesSet_Next it) as [[more it1] | e | ]; cbn [bind];
    try reflexivity.
  destruct more; [ | reflexivity ].
  rewrite <- Hctx. destruct (ctx promql.Fetching); [ reflexivity | ].
  destruct (remote.SeriesSet_At it1) as [[s | ] | e | ]; cbn [bind];
    try reflexivity.
  apply IH.
Qed.

(** [expandSeriesSet] on a concrete set: every series from the cursor
    on, in order; the context is looked at once per series. *)
Lemma expand_loop_concrete_total ctx l turns :
  forall cur res,
    0 <= cur ->
    Z.of_nat (List.length l) - cur < Z.of_nat turns ->
    (1 <= turns)%nat ->
    promql.expand_loop turns ctx (remote.concreteSeriesSet cur l) res
    = match ctx promql.Fetching with
      | Some err =>
          if cur <? Z.of_nat (List.length l) then Return (Fail err)
          else Return (OK res)
      | None => Return (OK (res ++ skipn (Z.to_nat cur) l))
      end.
Proof.
  induction turns as [ | k IH ]; intros cur res Hcur Hturns Hone; [ lia | ].
  cbn [promql.expand_loop remote.SeriesSet_Next bind].
  replace (cur + 1 - 1) with cur by lia.
  destruct (cur <? Z.of_nat (List.length l)) eqn:Hmore.
  - apply Z.ltb_lt in Hmore.
    destruct (ctx promql.Fetching) as [err | ] eqn:Hctx; [ reflexivity | ].
    cbn [remote.SeriesSet_At].
    replace (cur + 1 - 1) with cur by lia.
    rewrite (proj2 (Z.leb_le 0 cur) Hcur), (proj2 (Z.ltb_lt _ _) Hmore).
    cbn [andb bind].
    destruct (nth_error l (Z.to_nat cur)) as [s | ] eqn:Hnth.
    + rewrite IH by lia.
      rewrite (skipn_nth_error _ _ _ Hnth), <- app_assoc.
      replace (Z.to_nat (cur + 1)) with (S (Z.to_nat cur)) by lia. reflexivity.
    + apply nth_error_None in Hnth. lia.
  - apply Z.ltb_ge in Hmore. cbn [remote.SeriesSet_Err bind].
    destruct (ctx promql.Fetching); [ reflexivity | ].
    rewrite skipn_all2 by lia. rewrite app_nil_r. reflexivity.
Qed.

(** X6: [expandSeriesSet] reads a concrete series set to its end within
    its turns: with a live context it returns all the series in their
    order; with a context that is done it returns the context's own
    error, unwrapped, provided the set holds a series, and succeeds
    with no series when the set is empty, for the context is only
    looked at inside the loop.  An error set gives its error; the nil
    set, a nil-pointer panic. *)
Theorem expandSeriesSet_outcomes :
  (forall ctx l,
      ctx promql.Fetching = None ->
      promql.expandSeriesSet ctx (remote.concreteSeriesSet 0 l) = Return (OK l))
  /\ (forall ctx err s l,
         ctx promql.Fetching = Some err ->
         promql.expandSeriesSet ctx (remote.concreteSeriesSet 0 (s :: l))
         = Return (Fail err))
  /\ (forall ctx,
         promql.expandSeriesSet ctx (remote.concreteSeriesSet 0 []) = Return (OK []))
  /\ (forall ctx err,
         promql.expandSeriesSet ctx (remote.errSeriesSet err) = Return (Fail err))
  /\ (forall ctx,
         promql.expandSeriesSet ctx remote.nilSeriesSet
         = Panic remote.nil_dereference).
Proof.
  split; [ | split; [ | split; [ | split ] ] ].
  - intros ctx l Hctx. unfold promql.expandSeriesSet, promql.expand_turns.
    rewrite expand_loop_concrete_total by lia. rewrite Hctx. reflexivity.
  - intros ctx err s l Hctx. unfold promql.expandSeriesSet, promql.expand_turns.
    rewrite expand_loop_concrete_total by lia. rewrite Hctx. reflexivity.
  - intros ctx. unfold promql.expandSeriesSet, promql.expand_turns.
    rewrite expand_loop_concrete_total by (simpl; lia).
    destruct (ctx promql.Fetching); reflexivity.
  - intros ctx err. reflexivity.
  - intros ctx. reflexivity.
Qed.

Lemma populateSeries_ctx (ctx ctx' : promql.Context) q p :
  ctx promql.Fetching = ctx' promql.Fetching ->
  promql.populateSeries ctx q p = promql.populateSeries ctx' q p.
Proof.
  intros Hctx. unfold promql.populateSeries, promql.expandSeriesSet.
  destruct q as [queries | err]; [ | reflexivity ].
  destruct (remote.Select queries p) as [set | err]; [ | reflexivity ].
  apply expand_loop_ctx. exact Hctx.
Qed.

(** X7: where [exec] looks at the context.  An error of the gate is
    returned wrapped for the phase "query queue" and nothing else of
    the query runs.  An instant query does not look at the context
    after the fetch: two contexts that agree in the queue and during
    the fetch give the same outcome.  A range query whose context is
    done once the evaluation is over drops the matrix and returns the
    error wrapped for the phase "expression evaluation".  [contextErr]
    wraps the two context errors and nothing else, so wrapping twice
    changes nothing. *)
Theorem exec_context_phases LookbackDelta fuel pool :
  (forall ctx q e,
      ctx promql.Queued = Some e ->
      promql.exec LookbackDelta fuel pool ctx q
      = Return (None, Some (promql.contextErr e "query queue")))
  /\ (forall ctx ctx' q,
         is_instant q = true ->
         ctx promql.Queued = ctx' promql.Queued ->
         ctx promql.Fetching = ctx' promql.Fetching ->
         promql.exec LookbackDelta fuel pool ctx q
         = promql.exec LookbackDelta fuel pool ctx' q)
  /\ (forall ctx q series mat e,
         promql.gate_Start ctx = None ->
         promql.populateSeries ctx (promql.queryable q) (promql.params q)
         = Return (OK series) ->
         is_instant q = false ->
         promql.eval LookbackDelta fuel pool (evaluator_of q) series
         = Return (value.OfMatrix mat) ->
         ctx promql.Evaluated = Some e ->
         promql.exec LookbackDelta fuel pool ctx q
         = Return (None, Some (promql.contextErr e "expression evaluation")))
  /\ (forall env,
         promql.contextErr context_Canceled env = ErrQueryCanceled env
         /\ promql.contextErr context_DeadlineExceeded env = ErrQueryTimeout env)
  /\ (forall e env env',
         promql.contextErr (promql.contextErr e env) env' = promql.contextErr e env).
Proof.
  split; [ | split; [ | split; [ | split ] ] ].
  - intros ctx q e H. rewrite exec_eq. unfold promql.gate_Start. rewrite H.
    reflexivity.
  - intros ctx ctx' q Hinst Hq Hf. rewrite !exec_eq. unfold promql.gate_Start.
    rewrite <- Hq. rewrite (populateSeries_ctx ctx ctx' _ _ Hf).
    destruct (ctx promql.Queued); [ reflexivity | ].
    destruct (promql.populateSeries ctx' _ _) as [[series | err] | err | ];
      try reflexivity.
    cbn [bind].
    destruct (promql.eval _ _ _ _ _) as [[mat | | | ] | err | ]; try reflexivity.
    cbn [bind finish]. rewrite Hinst. reflexivity.
  - intros ctx q series mat e Hgate Hpop Hinst Heval Hctx.
    rewrite exec_eq, Hgate, Hpop. cbn [bind]. rewrite Heval. cbn [bind finish].
    rewrite Hinst. unfold promql.contextDone. rewrite Hctx. reflexivity.
  - intros env. split; reflexivity.
  - intros e env env'. destruct e; reflexivity.
Qed.

Section DirectClient.
Context {validation : model.Validation}.

Lemma FromInstantQueryResult_nil (res : remote.InstantQueryResult) :
  remote.FromInstantQueryResult res = remote.nilSeriesSet <-> instant_unusable res.
Proof.
  unfold remote.FromInstantQueryResult, instant_unusable.
  destruct (String.eqb (remote.InstantStatus res) "success"); simpl.
  - destruct (remote.InstantData res) as [data | ].
    + destruct (remote.InstantResult data) as [v | ] eqn:Hres.
      * split.
        -- destruct (remote.instant_loop v []); discriminate.
        -- intros [H | [H | (d & Hd & Hr)]]; try discriminate.
           inversion Hd. subst d. congruence.
      * split; [ | reflexivity ].
        intros _. right. right. exists data. split; [ reflexivity | exact Hres ].
    + split; [ | reflexivity ]. intros _. right. left. reflexivity.
  - split; [ | reflexivity ]. intros _. left. reflexivity.
Qed.

Lemma FromRangeQueryResult_nil (res : remote.RangeQueryResult) :
  remote.FromRangeQueryResult res = remote.nilSeriesSet <-> range_unusable res.
Proof.
  unfold remote.FromRangeQueryResult, range_unusable.
  destruct (String.eqb (remote.RangeStatus res) "success"); simpl.
  - destruct (remote.RangeData res) as [data | ].
    + destruct (remote.RangeResult data) as [v | ] eqn:Hres.
      * split.
        -- destruct (remote.range_loop v []); discriminate.
        -- intros [H | [H | (d & Hd & Hr)]]; try discriminate.
           inversion Hd. subst d. congruence.
      * split; [ | reflexivity ].
        intros _. right. right. exists data. split; [ reflexivity | exact Hres ].
    + split; [ | reflexivity ]. intros _. right. left. reflexivity.
  - split; [ | reflexivity ]. intros _. left. reflexivity.
Qed.

(** X8: a query run on a single client ([QueryableClient]).  The codec
    returns the nil series set exactly for a response whose status is
    not "success" or that lacks its data or result; [Select] passes
    the nil set on without an error, and [expandSeriesSet] calls [Next]
    on it: the query panics with a nil-pointer dereference, for the
    instant request (step 0) and for the range request alike.  A
    transport error of the client, in contrast, is returned as the
    error of the result. *)
Theorem unusable_response_panics LookbackDelta fuel pool ctx ng client qs
  startTs endTs step :
  promql.gate_Start ctx = None ->
  let q := promql.NewQuery ng (remote.QueryableClient client) qs startTs endTs step in
  (forall res, remote.FromInstantQueryResult res = remote.nilSeriesSet
               <-> instant_unusable res)
  /\ (forall res, remote.FromRangeQueryResult res = remote.nilSeriesSet
                  <-> range_unusable res)
  /\ (forall res,
         step = 0 ->
         remote.QueryInstant client qs startTs = OK res ->
         instant_unusable res ->
         promql.Exec LookbackDelta fuel pool ctx q = Panic remote.nil_dereference)
  /\ (forall res,
         step <> 0 ->
         remote.QueryRange client qs startTs endTs step = OK res ->
         range_unusable res ->
         promql.Exec LookbackDelta fuel pool ctx q = Panic remote.nil_dereference)
  /\ (forall err,
         (step = 0 /\ remote.QueryInstant client qs startTs = Fail err)
         \/ (step <> 0 /\ remote.QueryRange client qs startTs endTs step = Fail err) ->
         promql.Exec LookbackDelta fuel pool ctx q
         = Return {| value.Err := Some err; value.Value_ := None |}).
Proof.
  intros Hgate q.
  split; [ exact FromInstantQueryResult_nil | ].
  split; [ exact FromRangeQueryResult_nil | ].
  assert (Hexec : promql.exec LookbackDelta fuel pool ctx q
                  = (series <- match remote.querier_Select client (promql.params q) with
                               | Fail err => Return (Fail err)
                               | OK set => promql.expandSeriesSet ctx set
                               end ;;
                     match series with
                     | Fail err => Return (None, Some err)
                     | OK series =>
                         val <- promql.eval LookbackDelta fuel pool
                                  (evaluator_of q) series ;;
                         finish ctx q val
                     end)).
  { rewrite exec_eq, Hgate. reflexivity. }
  unfold promql.Exec. rewrite Hexec. unfold remote.querier_Select. simpl.
  split; [ | split ].
  - intros res -> Hres Hbad. simpl. rewrite Hres.
    rewrite (proj2 (FromInstantQueryResult_nil res) Hbad). reflexivity.
  - intros res Hstep Hres Hbad. rewrite (proj2 (Z.eqb_neq _ _) Hstep), Hres.
    rewrite (proj2 (FromRangeQueryResult_nil res) Hbad). reflexivity.
  - intros err [[-> Hres] | [Hstep Hres]].
    + simpl. rewrite Hres. reflexivity.
    + rewrite (proj2 (Z.eqb_neq _ _) Hstep), Hres. reflexivity.
Qed.
End DirectClient.

Lemma unusable_response_panics_witness :
  let client :=
    {| remote.QueryInstant := fun _ _ =>
         OK {| remote.InstantData := None; remote.InstantStatus := "error" |};
       remote.QueryRange := fun _ _ _ _ => Fail (Errorf "connection refused") |} in
  promql.Exec promql.DefaultLookbackDelta 2 0 promql.Background
    (promql.NewQuery
       (promql.NewEngine {| promql.MaxConcurrent := 20;
                            promql.MaxSamples := 10;
                            promql.Timeout := api.DefaultQueryTimeout |})
       (@remote.QueryableClient model.classic client) "up" 1000 1000 0)
  = Panic remote.nil_dereference.
Proof.
  intros client.
  refine (proj1 (proj2 (proj2
            (@unusable_response_panics model.classic promql.DefaultLookbackDelta
               2 0 promql.Background _ client "up"%string 1000 1000 0 eq_refl)))
            {| remote.InstantData := None; remote.InstantStatus := "error" |}
            eq_refl eq_refl _).
  left. reflexivity.
Defined.

(** ** [remote]: validation and the concrete iterator *)

Section ValidationExact.
Context {validation : model.Validation}.

Lemma validate_cons (l : labels.Label) (ls : labels.Labels) :
  remote.validateLabelsAndMetricName (l :: ls)
  = if valid_label l then remote.validateLabelsAndMetricName ls
    else remote.validateLabelsAndMetricName [l].
Proof.
  unfold valid_label. cbn [remote.validateLabelsAndMetricName].
  destruct (String.eqb (labels.Name l) labels.MetricName
            && negb (model.IsValidMetricName (labels.Value l))); [ reflexivity | ].
  destruct (model.LabelName_IsValid (labels.Name l)); [ | reflexivity ].
  destruct (model.LabelValue_IsValid (labels.Value l)); reflexivity.
Qed.

Lemma validate_single_invalid (l : labels.Label) :
  valid_label l = false -> remote.validateLabelsAndMetricName [l] <> None.
Proof.
  unfold valid_label. cbn [remote.validateLabelsAndMetricName].
  destruct (String.eqb (labels.Name l) labels.MetricName
            && negb (model.IsValidMetricName (labels.Value l))); [ discriminate | ].
  destruct (model.LabelName_IsValid (labels.Name l)); [ | discriminate ].
  destruct (model.LabelValue_IsValid (labels.Value l)); discriminate.
Qed.

Lemma validate_None_iff (ls : labels.Labels) :
  remote.validateLabelsAndMetricName ls = None
  <-> Forall (fun l => valid_label l = true) ls.
Proof.
  induction ls as [ | l ls IH ].
  - split; [ constructor | reflexivity ].
  - rewrite validate_cons. destruct (valid_label l) eqn:Hl.
    + rewrite IH. split.
      * intros H. constructor; assumption.
      * intros H. inversion H. assumption.
    + split.
      * intros H. exfalso. exact (validate_single_invalid l Hl H).
      * intros H. inversion H. congruence.
Qed.

(** X9: [validateLabelsAndMetricName] accepts a label set exactly when
    every label has a valid name and a valid value and, if it is the
    [__name__] label, a valid metric name; the error it returns is the
    one of the first label that fails, whatever follows it; and whether
    a label set is accepted does not depend on the order of its
    labels. *)
Theorem validateLabelsAndMetricName_exact :
  (forall ls,
      remote.validateLabelsAndMetricName ls = None
      <-> Forall (fun l => valid_label l = true) ls)
  /\ (forall good bad rest,
         Forall (fun l => valid_label l = true) good ->
         valid_label bad = false ->
         remote.validateLabelsAndMetricName (good ++ bad :: rest)
         = remote.validateLabelsAndMetricName [bad]
         /\ remote.validateLabelsAndMetricName [bad] <> None)
  /\ (forall ls ls',
         Permutation ls ls' ->
         (remote.validateLabelsAndMetricName ls = None
          <-> remote.validateLabelsAndMetricName ls' = None)).
Proof.
  split; [ exact validate_None_iff | ]. split.
  - intros good bad rest Hgood Hbad.
    split; [ | exact (validate_single_invalid bad Hbad) ].
    induction Hgood as [ | l good Hl _ IH ]; simpl app.
    + rewrite validate_cons, Hbad. reflexivity.
    + rewrite validate_cons, Hl. exact IH.
  - intros ls ls' Hperm. rewrite !validate_None_iff.
    split; intros H.
    + eapply Permutation_Forall; [ exact Hperm | exact H ].
    + eapply Permutation_Forall; [ apply Permutation_sym; exact Hperm | exact H ].
Qed.
End ValidationExact.

(** [sort.Search] on a predicate that, once true, stays true: the
    least index at which it holds, or [n]. *)
Lemma search_loop_spec (n : Z) (f : Z -> bool) :
  (forall a b, 0 <= a <= b -> b < n -> f a = true -> f b = true) ->
  forall turns i j,
    0 <= i <= j -> j <= n ->
    j - i <= Z.of_nat turns ->
    (forall k, 0 <= k < i -> f k = false) ->
    (forall k, j <= k < n -> f k = true) ->
    let r := sort.search_loop turns i j f in
    i <= r <= j
    /\ (forall k, 0 <= k < r -> f k = false)
    /\ (forall k, r <= k < n -> f k = true).
Proof.
  intros Hmono. induction turns as [ | t IH ]; intros i j Hij Hjn Hturns Hlow Hhigh.
  - simpl. assert (i = j) by lia. subst j.
    split; [ lia | ]. split; assumption.
  - cbn [sort.search_loop].
    destruct (i <? j) eqn:Hlt.
    + apply Z.ltb_lt in Hlt.
      assert (Hh : i <= (i + j) / 2 < j).
      { split.
        - apply Z.div_le_lower_bound; lia.
        - apply Z.div_lt_upper_bound; lia. }
      destruct (f ((i + j) / 2)) eqn:Hf; cbn [negb].
      * destruct (IH i ((i + j) / 2)) as (Hr & Hl & Hu); try lia; try assumption.
        { intros k Hk. apply (Hmono ((i + j) / 2) k); [ lia | lia | exact Hf ]. }
        split; [ lia | ]. split; assumption.
      * destruct (IH ((i + j) / 2 + 1) j) as (Hr & Hl & Hu); try lia; try assumption.
        { intros k Hk. destruct (f k) eqn:Hfk; [ | reflexivity ].
          destruct (Z_lt_ge_dec k i) as [Hki | Hki].
          - rewrite Hlow in Hfk by lia. discriminate.
          - rewrite (Hmono k ((i + j) / 2)) in Hf; [ discriminate | lia | lia | exact Hfk ]. }
        split; [ lia | ]. split; assumption.
    + apply Z.ltb_ge in Hlt. assert (i = j) by lia. subst j.
      split; [ lia | ]. split; assumption.
Qed.

(** X10: [concreteSeriesIterator.Seek] on samples whose timestamps do
    not descend puts the cursor on the first sample at or after [t],
    wherever the cursor was: every sample before the new cursor is
    older than [t], every sample from it on is not; it answers true
    exactly when there is such a sample, and then [At] returns it;
    after the answer false the cursor is past the end and [At]
    panics. *)
Theorem concrete_Seek_first_at_or_after (t : Z) (c : remote.concreteSeriesIterator) :
  nondecreasing c ->
  let ok := fst (remote.concrete_Seek t c) in
  let c' := snd (remote.concrete_Seek t c) in
  remote.series c' = remote.series c
  /\ 0 <= remote.cur c' <= remote.len_samples c
  /\ (forall i, 0 <= i < remote.cur c' ->
                prompb.Timestamp (remote.sample_at c i) < t)
  /\ (forall i, remote.cur c' <= i < remote.len_samples c ->
                t <= prompb.Timestamp (remote.sample_at c i))
  /\ (ok = true <->
      exists i, 0 <= i < remote.len_samples c
                /\ t <= prompb.Timestamp (remote.sample_at c i))
  /\ (if ok
      then remote.concrete_At c' = Return (remote.sample_at c (remote.cur c'))
      else remote.cur c' = remote.len_samples c
           /\ remote.concrete_At c' = Panic remote.index_out_of_range).
Proof.
  intros Hasc ok c'.
  set (n := remote.len_samples c).
  set (f := fun k => prompb.Timestamp (remote.sample_at c k) >=? t).
  assert (Hn : 0 <= n) by (unfold n, remote.len_samples; lia).
  assert (Hmono : forall a b, 0 <= a <= b -> b < n -> f a = true -> f b = true).
  { unfold f. intros a b Hab Hb Ha. apply Z.geb_le in Ha. apply Z.geb_le.
    specialize (Hasc a b Hab Hb). lia. }
  destruct (search_loop_spec n f Hmono (Z.to_nat n) 0 n) as (Hr & Hlow & Hhigh);
    try lia.
  fold (sort.Search n f) in Hr, Hlow, Hhigh.
  assert (Hcur : remote.cur c' = sort.Search n f) by reflexivity.
  assert (Hok : ok = (sort.Search n f <? n)) by reflexivity.
  rewrite Hcur.
  split; [ reflexivity | ]. split; [ lia | ]. split.
  { intros i Hi. specialize (Hlow i Hi). unfold f in Hlow.
    rewrite Z.geb_leb in Hlow. apply Z.leb_gt in Hlow. exact Hlow. }
  split.
  { intros i Hi. specialize (Hhigh i Hi). unfold f in Hhigh.
    apply Z.geb_le in Hhigh. exact Hhigh. }
  split.
  { rewrite Hok, Z.ltb_lt. split.
    - intros Hlt. exists (sort.Search n f). split; [ lia | ].
      specialize (Hhigh (sort.Search n f) ltac:(lia)). unfold f in Hhigh.
      apply Z.geb_le in Hhigh. exact Hhigh.
    - intros (i & Hi & Hge).
      destruct (Z_lt_ge_dec (sort.Search n f) n) as [ | Hpast ]; [ assumption | ].
      specialize (Hlow i ltac:(lia)). unfold f in Hlow.
      rewrite Z.geb_leb in Hlow. apply Z.leb_gt in Hlow. lia. }
  rewrite Hok. unfold remote.concrete_At. rewrite Hcur.
  change (remote.len_samples c') with n.
  destruct (sort.Search n f <? n) eqn:Hlt.
  - rewrite (proj2 (Z.leb_le _ _)) by lia. reflexivity.
  - apply Z.ltb_ge in Hlt. split; [ lia | ].
    rewrite andb_false_r. reflexivity.
Qed.

Lemma concrete_Seek_first_at_or_after_witness :
  let c := remote.Iterator
             (Fixtures.series_of Fixtures.up
                [(900, Fixtures.one); (1000, Fixtures.two); (1100, Fixtures.one)]) in
  remote.cur (snd (remote.concrete_Seek 950 c)) = 1
  /\ remote.concrete_At (snd (remote.concrete_Seek 950 c))
     = Return {| prompb.Value := Fixtures.two; prompb.Timestamp := 1000 |}.
Proof.
  intros c.
  assert (Hasc : nondecreasing c).
  { intros i j Hij Hj. unfold remote.len_samples in Hj. simpl in Hj.
    assert (Hi : i = 0 \/ i = 1 \/ i = 2) by lia.
    assert (Hj' : j = 0 \/ j = 1 \/ j = 2) by lia.
    destruct Hi as [-> | [-> | ->]]; destruct Hj' as [-> | [-> | ->]];
      try lia; vm_compute; discriminate. }
  pose proof (concrete_Seek_first_at_or_after 950 c Hasc) as H.
  cbv zeta in H. destruct H as (_ & _ & _ & _ & _ & Hat).
  split; [ reflexivity | ].
  change (fst (remote.concrete_Seek 950 c)) with true in Hat.
  rewrite Hat. reflexivity.
Defined.

Lemma Next_times_spec (s : remote.concreteSeries) (n : nat) :
  remote.cur (Next_times n (remote.Iterator s)) = Z.of_nat n - 1
  /\ remote.series (Next_times n (remote.Iterator s)) = s.
Proof.
  induction n as [ | n [IHc IHs] ].
  - split; reflexivity.
  - cbn [Next_times]. unfold remote.concrete_Next.
    cbn [snd remote.cur remote.series]. rewrite IHc, IHs.
    split; [ lia | reflexivity ].
Qed.

(** X11: [Next] walks the samples in their order.  On a fresh iterator
    the call number [n + 1] answers true exactly when the series has a
    sample of index [n], and [At] then returns that sample; once the
    samples are used up [Next] keeps answering false and [At] panics,
    as it does on a fresh iterator before the first [Next]. *)
Theorem Next_walks_the_samples (s : remote.concreteSeries) (n : nat) :
  let r := remote.concrete_Next (Next_times n (remote.Iterator s)) in
  fst r = (Z.of_nat n <? Z.of_nat (List.length (remote.samples s)))
  /\ remote.cur (snd r) = Z.of_nat n
  /\ match nth_error (remote.samples s) n with
     | Some x => fst r = true /\ remote.concrete_At (snd r) = Return x
     | None => fst r = false
               /\ remote.concrete_At (snd r) = Panic remote.index_out_of_range
     end
  /\ remote.concrete_At (remote.Iterator s) = Panic remote.index_out_of_range.
Proof.
  intros r. destruct (Next_times_spec s n) as [Hc Hs].
  assert (Hcur : remote.cur (snd r) = Z.of_nat n).
  { unfold r, remote.concrete_Next. cbn [snd remote.cur]. rewrite Hc. lia. }
  assert (Hser : remote.series (snd r) = s).
  { unfold r, remote.concrete_Next. cbn [snd remote.series]. exact Hs. }
  assert (Hfst : fst r = (Z.of_nat n <? Z.of_nat (List.length (remote.samples s)))).
  { unfold r, remote.concrete_Next, remote.len_samples. cbn [fst]. rewrite Hc, Hs.
    f_equal. lia. }
  split; [ exact Hfst | ]. split; [ exact Hcur | ]. split; [ | reflexivity ].
  unfold remote.concrete_At, remote.len_samples, remote.sample_at.
  rewrite Hcur, Hser, Hfst, Nat2Z.id.
  destruct (nth_error (remote.samples s) n) as [x | ] eqn:Hnth.
  - assert (Hlt : (n < List.length (remote.samples s))%nat).
    { apply nth_error_Some. congruence. }
    rewrite (proj2 (Z.ltb_lt _ _)) by lia.
    rewrite (proj2 (Z.leb_le _ _)) by lia.
    split; [ reflexivity | ]. cbn [andb]. f_equal.
    apply nth_error_nth. exact Hnth.
  - apply nth_error_None in Hnth.
    rewrite (proj2 (Z.ltb_ge _ _)) by lia.
    split; [ reflexivity | ]. rewrite andb_false_r. reflexivity.
Qed.

(** ** [promql]: what the evaluator keeps *)

Lemma eval_series_nonempty LookbackDelta fuel numSteps series :
  forall ev it pool mat mat' ev',
    promql.eval_series LookbackDelta fuel ev it pool numSteps series mat
    = Return (mat', ev') ->
    Forall (fun s => value.Points s <> []) mat ->
    Forall (fun s => value.Points s <> []) mat'.
Proof.
  induction series as [ | s series IH ]; intros ev it pool mat mat' ev' H Hmat.
  - simpl in H. inversion H. subst. exact Hmat.
  - cbn [promql.eval_series] in H.
    destruct (promql.getPointSlice pool numSteps) as [[pts pool'] | e | ];
      cbn [bind] in H; try discriminate H.
    destruct (promql.eval_steps _ _ _ _ _ _) as [[[points it1] ev1] | e | ];
      cbn [bind] in H; try discriminate H.
    apply IH in H; [ exact H | ].
    destruct (0 <? List.length points)%nat eqn:Hpos; [ | exact Hmat ].
    apply Forall_app. split; [ exact Hmat | ].
    constructor; [ | constructor ]. simpl.
    apply Nat.ltb_lt in Hpos. destruct points; [ simpl in Hpos; lia | discriminate ].
Qed.

Lemma to_vector_returns (start : Z) (mat : value.Matrix) :
  Forall (fun s => value.Points s <> []) mat ->
  exists vec, promql.to_vector mat start = Return vec
              /\ List.length vec = List.length mat.
Proof.
  induction 1 as [ | s mat Hs _ IH ]; simpl.
  - exists []. split; reflexivity.
  - destruct (value.Points s) as [ | p ps ]; [ congruence | ].
    destruct IH as (vec & -> & Hlen). cbn [bind].
    eexists. split; [ reflexivity | ]. simpl. rewrite Hlen. reflexivity.
Qed.

(** X12: no series of the matrix the evaluator returns is empty: a
    series that got no point is left out.  So the conversion of an
    instant query's matrix to a vector, which reads [s.Points[0]] of
    every series, never panics, and the vector has one sample for each
    series of the matrix. *)
Theorem matrix_series_never_empty LookbackDelta fuel pool ev series mat :
  promql.eval LookbackDelta fuel pool ev series = Return (value.OfMatrix mat) ->
  Forall (fun s => value.Points s <> []) mat
  /\ forall start,
      exists vec, promql.to_vector mat start = Return vec
                  /\ List.length vec = List.length mat.
Proof.
  intros H. unfold promql.eval, promql.eval_from in H.
  destruct (promql.interval ev =? 0); [ discriminate H | ].
  destruct (promql.eval_series _ _ _ _ _ _ _ _) as [[mat' ev'] | e | ] eqn:Hrun;
    cbn [bind] in H; try discriminate H.
  inversion H. subst mat'.
  apply eval_series_nonempty in Hrun; [ | constructor ].
  split; [ exact Hrun | ].
  intros start. apply to_vector_returns. exact Hrun.
Qed.

Lemma matrix_series_never_empty_witness :
  let mat := [ {| value.Metric := Fixtures.up;
                  value.Points := [ {| value.T := 1300; value.V := Fixtures.one |} ] |} ] in
  Forall (fun s => value.Points s <> []) mat
  /\ forall start,
      exists vec, promql.to_vector mat start = Return vec
                  /\ List.length vec = List.length mat.
Proof.
  intros mat.
  apply (matrix_series_never_empty promql.DefaultLookbackDelta 2 0
           {| promql.startTimestamp := 1300;
              promql.endTimestamp := 1300;
              promql.interval := 1;
              promql.maxSamples := 10;
              promql.currentSamples := 0 |}
           [Fixtures.series_of Fixtures.up [(1000, Fixtures.one)]] mat).
  vm_compute. reflexivity.
Defined.

Lemma eval_steps_on_grid LookbackDelta fuel :
  forall ev it ts pts pts' it' ev',
    0 < promql.interval ev ->
    Int64.min_int <= ts ->
    promql.endTimestamp ev + promql.interval ev <= Int64.max_int ->
    (ts - promql.startTimestamp ev) mod promql.interval ev = 0 ->
    promql.eval_steps LookbackDelta fuel ev it ts pts = Return (pts', it', ev') ->
    exists new, pts' = pts ++ new /\ on_grid_from ev ts new.
Proof.
  induction fuel as [ | k IH ];
    intros ev it ts pts pts' it' ev' Hstep Hmin Hmax Hmod H; [ discriminate H | ].
  cbn [promql.eval_steps] in H.
  destruct (ts <=? promql.endTimestamp ev) eqn:Hin.
  - apply Z.leb_le in Hin.
    assert (Hnext : Int64.add ts (promql.interval ev) = ts + promql.interval ev).
    { unfold Int64.add. apply wrap_in_range.
      unfold Int64.in_range, Int64.min_int, Int64.max_int in *. lia. }
    rewrite Hnext in H.
    assert (Hmod' : (ts + promql.interval ev - promql.startTimestamp ev)
                      mod promql.interval ev = 0).
    { replace (ts + promql.interval ev - promql.startTimestamp ev)
        with (ts - promql.startTimestamp ev + 1 * promql.interval ev) by lia.
      rewrite Z.mod_add by lia. exact Hmod. }
    assert (Hweaken : forall new,
               on_grid_from ev (ts + promql.interval ev) new ->
               Forall (fun p => ts <= value.T p <= promql.endTimestamp ev
                                /\ (value.T p - promql.startTimestamp ev)
                                     mod promql.interval ev = 0) new).
    { intros new [Hall _]. eapply Forall_impl; [ | exact Hall ].
      simpl. intros p Hp. split; [ lia | apply Hp ]. }
    destruct (promql.vectorSelectorSingle LookbackDelta it ts)
      as [[[[t v] ok] it1] | e | ]; cbn [bind] in H; try discriminate H.
    destruct ok.
    + destruct (promql.currentSamples ev <? promql.maxSamples ev);
        [ | discriminate H ].
      apply (IH (promql.count_sample ev)) in H; try assumption; try lia.
      destruct H as (new & -> & Hgrid). cbn [promql.count_sample
        promql.endTimestamp promql.startTimestamp promql.interval] in Hgrid.
      exists ({| value.T := ts; value.V := v |} :: new).
      split; [ rewrite <- app_assoc; reflexivity | ].
      split.
      * constructor; [ simpl; split; [ lia | exact Hmod ] | ].
        apply Hweaken. exact Hgrid.
      * constructor; [ apply Hgrid | ].
        destruct Hgrid as [Hall _]. eapply Forall_impl; [ | exact Hall ].
        simpl. intros p Hp. lia.
    + apply IH in H; try assumption; try lia.
      destruct H as (new & -> & Hgrid). exists new. split; [ reflexivity | ].
      split; [ apply Hweaken; exact Hgrid | apply Hgrid ].
  - inversion H. subst. exists []. split; [ rewrite app_nil_r; reflexivity | ].
    split; constructor.
Qed.

Lemma eval_series_on_grid LookbackDelta fuel numSteps series :
  forall ev it pool mat mat' ev',
    0 < promql.interval ev ->
    Int64.min_int <= promql.startTimestamp ev ->
    promql.endTimestamp ev + promql.interval ev <= Int64.max_int ->
    promql.eval_series LookbackDelta fuel ev it pool numSteps series mat
    = Return (mat', ev') ->
    Forall (fun s => on_grid_from ev (promql.startTimestamp ev) (value.Points s)) mat ->
    Forall (fun s => on_grid_from ev (promql.startTimestamp ev) (value.Points s)) mat'.
Proof.
  induction series as [ | s series IH ];
    intros ev it pool mat mat' ev' Hstep Hmin Hmax H Hmat.
  - simpl in H. inversion H. subst. exact Hmat.
  - cbn [promql.eval_series] in H.
    destruct (promql.getPointSlice pool numSteps) as [[pts pool'] | e | ] eqn:Hget;
      cbn [bind] in H; try discriminate H.
    assert (Hpts : pts = []).
    { unfold promql.getPointSlice in Hget. destruct pool.
      - destruct (numSteps <? 0); [ discriminate Hget | ].
        inversion Hget. reflexivity.
      - inversion Hget. reflexivity. }
    subst pts.
    destruct (promql.eval_steps _ _ _ _ _ _) as [[[points it1] ev1] | e | ] eqn:Hsteps;
      cbn [bind] in H; try discriminate H.
    destruct (eval_steps_fields _ _ _ _ _ _ _ _ _ Hsteps) as (Hs & He & Hi & _).
    apply eval_steps_on_grid in Hsteps; try assumption.
    2: { rewrite Z.sub_diag. apply Z.mod_0_l. lia. }
    destruct Hsteps as (new & -> & Hgrid). simpl in H.
    assert (Hsame : forall pts,
               on_grid_from ev (promql.startTimestamp ev) pts ->
               on_grid_from ev1 (promql.startTimestamp ev1) pts).
    { intros pts Hg. unfold on_grid_from. rewrite Hs, He, Hi. exact Hg. }
    assert (Hback : forall pts,
               on_grid_from ev1 (promql.startTimestamp ev1) pts ->
               on_grid_from ev (promql.startTimestamp ev) pts).
    { intros pts Hg. unfold on_grid_from in Hg. rewrite Hs, He, Hi in Hg. exact Hg. }
    apply IH in H; try (rewrite ?Hs, ?He, ?Hi; assumption).
    + eapply Forall_impl; [ | exact H ]. intros a Ha. apply Hback. exact Ha.
    + destruct (0 <? List.length new)%nat.
      * apply Forall_app. split.
        -- eapply Forall_impl; [ | exact Hmat ]. intros a Ha. apply Hsame. exact Ha.
        -- constructor; [ | constructor ]. apply Hsame. exact Hgrid.
      * eapply Forall_impl; [ | exact Hmat ]. intros a Ha. apply Hsame. exact Ha.
Qed.

(** X13: with a positive step and a grid that stays inside [int64],
    the points of every series of the evaluator's matrix lie on the
    grid: their timestamps are [start + k * step], between start and
    end, and strictly increase along the series; so a series has at
    most one point for a grid step and is itself ascending and
    timestamp-unique. *)
Theorem range_points_lie_on_the_grid LookbackDelta fuel pool ev series mat :
  0 < promql.interval ev ->
  Int64.min_int <= promql.startTimestamp ev ->
  promql.endTimestamp ev + promql.interval ev <= Int64.max_int ->
  promql.eval LookbackDelta fuel pool ev series = Return (value.OfMatrix mat) ->
  Forall (fun s =>
            Forall (fun p =>
                      promql.startTimestamp ev <= value.T p <= promql.endTimestamp ev
                      /\ (value.T p - promql.startTimestamp ev)
                           mod promql.interval ev = 0)
              (value.Points s)
            /\ StronglySorted (fun a b => value.T a < value.T b) (value.Points s))
    mat.
Proof.
  intros Hstep Hmin Hmax H. unfold promql.eval, promql.eval_from in H.
  rewrite (proj2 (Z.eqb_neq _ _)) in H by lia.
  destruct (promql.eval_series _ _ _ _ _ _ _ _) as [[mat' ev'] | e | ] eqn:Hrun;
    cbn [bind] in H; try discriminate H.
  inversion H. subst mat'.
  apply eval_series_on_grid in Hrun; try assumption. constructor.
Qed.

Lemma range_points_lie_on_the_grid_witness :
  Forall (fun s =>
            Forall (fun p => 700 <= value.T p <= 1300
                             /\ (value.T p - 700) mod 300 = 0)
              (value.Points s)
            /\ StronglySorted (fun a b => value.T a < value.T b) (value.Points s))
    [ {| value.Metric := Fixtures.up;
         value.Points := [ {| value.T := 1000; value.V := Fixtures.one |};
                           {| value.T := 1300; value.V := Fixtures.one |} ] |} ].
Proof.
  apply (range_points_lie_on_the_grid promql.DefaultLookbackDelta 4 0
           {| promql.startTimestamp := 700;
              promql.endTimestamp := 1300;
              promql.interval := 300;
              promql.maxSamples := 10;
              promql.currentSamples := 0 |}
           [Fixtures.series_of Fixtures.up [(1000, Fixtures.one)]]).
  - simpl. lia.
  - vm_compute. discriminate.
  - vm_compute. discriminate.
  - vm_compute. reflexivity.
Defined.

Lemma eval_steps_within LookbackDelta fuel :
  forall ev it ts pts pts' it' ev',
    promql.eval_steps LookbackDelta fuel ev it ts pts = Return (pts', it', ev') ->
    promql.currentSamples ev' = promql.currentSamples ev
    \/ promql.currentSamples ev' <= promql.maxSamples ev.
Proof.
  induction fuel as [ | k IH ]; intros ev it ts pts pts' it' ev' H;
    [ discriminate H | ].
  cbn [promql.eval_steps] in H.
  destruct (ts <=? promql.endTimestamp ev).
  - destruct (promql.vectorSelectorSingle LookbackDelta it ts)
      as [[[[t v] ok] it1] | e | ]; cbn [bind] in H; try discriminate H.
    destruct ok.
    + destruct (promql.currentSamples ev <? promql.maxSamples ev) eqn:Hlt;
        [ | discriminate H ].
      apply Z.ltb_lt in Hlt. apply IH in H. simpl in H. right. lia.
    + apply IH in H. exact H.
  - inversion H. subst. left. reflexivity.
Qed.

Lemma eval_series_within LookbackDelta fuel numSteps series :
  forall ev it pool mat mat' ev',
    promql.eval_series LookbackDelta fuel ev it pool numSteps series mat
    = Return (mat', ev') ->
    promql.currentSamples ev' = promql.currentSamples ev
    \/ promql.currentSamples ev' <= promql.maxSamples ev.
Proof.
  induction series as [ | s series IH ]; intros ev it pool mat mat' ev' H.
  - simpl in H. inversion H. subst. left. reflexivity.
  - cbn [promql.eval_series] in H.
    destruct (promql.getPointSlice pool numSteps) as [[pts pool'] | e | ];
      cbn [bind] in H; try discriminate H.
    destruct (promql.eval_steps _ _ _ _ _ _) as [[[points it1] ev1] | e | ] eqn:Hsteps;
      cbn [bind] in H; try discriminate H.
    destruct (eval_steps_fields _ _ _ _ _ _ _ _ _ Hsteps) as (_ & _ & _ & Hm).
    apply eval_steps_within in Hsteps. apply IH in H. rewrite Hm in H. lia.
Qed.

(** X14: the evaluator keeps count of what it returns and keeps within
    its budget.  Started with a count of zero, it returns a matrix
    whose number of points is the count it ends with, and that number
    is zero or at most [maxSamples]: no returned matrix holds more
    points than the budget. *)
Theorem returned_matrix_within_budget LookbackDelta fuel pool ev series mat ev' :
  promql.currentSamples ev = 0 ->
  promql.eval_from LookbackDelta fuel pool ev series = Return (mat, ev') ->
  value.TotalSamples mat = promql.currentSamples ev'
  /\ (value.TotalSamples mat = 0 \/ value.TotalSamples mat <= promql.maxSamples ev).
Proof.
  intros Hzero H. unfold promql.eval_from in H.
  destruct (promql.interval ev =? 0); [ discriminate H | ].
  pose proof (eval_series_count _ _ _ _ _ _ _ _ _ _ H) as [Htot _].
  pose proof (eval_series_within _ _ _ _ _ _ _ _ _ _ H) as Hin.
  rewrite TotalSamples_total_points. simpl in Htot. rewrite Hzero in *.
  split; lia.
Qed.

Lemma returned_matrix_within_budget_witness :
  let mat := [ {| value.Metric := Fixtures.up;
                  value.Points := [ {| value.T := 1300; value.V := Fixtures.one |} ] |} ] in
  value.TotalSamples mat = 1
  /\ (value.TotalSamples mat = 0 \/ value.TotalSamples mat <= 10).
Proof.
  intros mat.
  apply (returned_matrix_within_budget promql.DefaultLookbackDelta 2 0
           {| promql.startTimestamp := 1300;
              promql.endTimestamp := 1300;
              promql.interval := 1;
              promql.maxSamples := 10;
              promql.currentSamples := 0 |}
           [Fixtures.series_of Fixtures.up [(1000, Fixtures.one)]] mat
           {| promql.startTimestamp := 1300;
              promql.endTimestamp := 1300;
              promql.interval := 1;
              promql.maxSamples := 10;
              promql.currentSamples := 1 |}).
  - reflexivity.
  - vm_compute. reflexivity.
Defined.

Lemma subsequence_refl {A : Type} (l : list A) : subsequence l l.
Proof. induction l; constructor; assumption. Qed.

Lemma subsequence_app_head {A : Type} (l l1 l2 : list A) :
  subsequence l1 l2 -> subsequence (l ++ l1) (l ++ l2).
Proof. intros H. induction l; simpl; [ exact H | constructor; assumption ]. Qed.

Lemma eval_series_subsequence LookbackDelta fuel numSteps series :
  forall ev it pool mat mat' ev',
    promql.eval_series LookbackDelta fuel ev it pool numSteps series mat
    = Return (mat', ev') ->
    exists kept,
      map value.Metric mat' = map value.Metric mat ++ kept
      /\ subsequence kept (map remote.Labels series).
Proof.
  induction series as [ | s series IH ]; intros ev it pool mat mat' ev' H.
  - simpl in H. inversion H. subst. exists []. split.
    + rewrite app_nil_r. reflexivity.
    + constructor.
  - cbn [promql.eval_series] in H.
    destruct (promql.getPointSlice pool numSteps) as [[pts pool'] | e | ];
      cbn [bind] in H; try discriminate H.
    destruct (promql.eval_steps _ _ _ _ _ _) as [[[points it1] ev1] | e | ];
      cbn [bind] in H; try discriminate H.
    apply IH in H. destruct H as (kept & Hmap & Hsub).
    destruct (0 <? List.length points)%nat.
    + exists (remote.Labels s :: kept). split.
      * rewrite Hmap, map_app, <- app_assoc. reflexivity.
      * simpl. constructor. exact Hsub.
    + exists kept. split; [ exact Hmap | ]. simpl. constructor. exact Hsub.
Qed.

(** X15: the evaluator makes entries only of the series it was given,
    in the order it was given them, and at most one of each: the
    metrics of its matrix are the label sets of the input series with
    some left out; the vector of an instant query keeps the metrics of
    the matrix one for one. *)
Theorem matrix_metrics_follow_the_input LookbackDelta fuel pool ev series mat :
  promql.eval LookbackDelta fuel pool ev series = Return (value.OfMatrix mat) ->
  subsequence (map value.Metric mat) (map remote.Labels series)
  /\ forall start vec,
      promql.to_vector mat start = Return vec ->
      map value.SampleMetric vec = map value.Metric mat.
Proof.
  intros H. split.
  - unfold promql.eval, promql.eval_from in H.
    destruct (promql.interval ev =? 0); [ discriminate H | ].
    destruct (promql.eval_series _ _ _ _ _ _ _ _) as [[mat' ev'] | e | ] eqn:Hrun;
      cbn [bind] in H; try discriminate H.
    inversion H. subst mat'.
    apply eval_series_subsequence in Hrun. destruct Hrun as (kept & Hmap & Hsub).
    rewrite Hmap. exact Hsub.
  - intros start vec Hvec. apply to_vector_spec in Hvec. apply Hvec.
Qed.

Lemma matrix_metrics_follow_the_input_witness :
  subsequence [Fixtures.up] [Fixtures.down; Fixtures.up].
Proof.
  apply (proj1 (matrix_metrics_follow_the_input promql.DefaultLookbackDelta 2 0
                  {| promql.startTimestamp := 1300;
                     promql.endTimestamp := 1300;
                     promql.interval := 1;
                     promql.maxSamples := 10;
                     promql.currentSamples := 0 |}
                  [Fixtures.series_of Fixtures.down [(100, Fixtures.one)];
                   Fixtures.series_of Fixtures.up [(1000, Fixtures.one)]]
                  [ {| value.Metric := Fixtures.up;
                       value.Points :=
                         [ {| value.T := 1300; value.V := Fixtures.one |} ] |} ]
                  ltac:(vm_compute; reflexivity))).
Defined.

(** ** [promql]: the edges of the grid *)

Lemma wrap_range (z : Z) : Int64.in_range (Int64.wrap z).
Proof.
  unfold Int64.in_range, Int64.wrap, Int64.min_int, Int64.max_int.
  pose proof (Z.mod_pos_bound (z + 2 ^ 63) (2 ^ 64) ltac:(lia)) as H. lia.
Qed.

Lemma numSteps_before_start (ev : promql.evaluator) :
  0 < promql.interval ev ->
  Int64.in_range (promql.endTimestamp ev - promql.startTimestamp ev) ->
  promql.endTimestamp ev + 2 * promql.interval ev <= promql.startTimestamp ev ->
  Int64.add
    (Int64.quo (Int64.sub (promql.endTimestamp ev) (promql.startTimestamp ev))
       (promql.interval ev)) 1 < 0.
Proof.
  intros Hstep Hrange Hgap.
  set (d := promql.endTimestamp ev - promql.startTimestamp ev) in *.
  set (i := promql.interval ev) in *.
  unfold Int64.add, Int64.quo, Int64.sub. fold d.
  rewrite (wrap_in_range d Hrange).
  assert (Hq : d <= Z.quot d i <= -2).
  { assert (Hopp : Z.quot d i = - Z.quot (- d) i).
    { rewrite Z.quot_opp_l by lia. lia. }
    rewrite Hopp. rewrite Z.quot_div_nonneg by lia.
    assert (2 <= (- d) / i) by (apply Z.div_le_lower_bound; lia).
    assert ((- d) / i <= - d) by (apply Z.div_le_upper_bound; nia).
    lia. }
  unfold Int64.in_range, Int64.min_int, Int64.max_int in Hrange.
  rewrite (wrap_in_range (Z.quot d i))
    by (unfold Int64.in_range, Int64.min_int, Int64.max_int; lia).
  rewrite wrap_in_range
    by (unfold Int64.in_range, Int64.min_int, Int64.max_int; lia).
  lia.
Qed.

(** X16: a grid whose end lies two steps or more before its start.
    The evaluator computes a negative number of steps and asks
    [getPointSlice] for a slice of that capacity for the first series:
    with no recycled slice in the pool, [make] panics ("makeslice: cap
    out of range") and the query crashes instead of returning an empty
    matrix.  With a recycled slice for every series, or with no series
    at all, the same query returns the empty matrix. *)
Theorem end_before_start_panics LookbackDelta fuel ev s series :
  0 < promql.interval ev ->
  Int64.in_range (promql.endTimestamp ev - promql.startTimestamp ev) ->
  promql.endTimestamp ev + 2 * promql.interval ev <= promql.startTimestamp ev ->
  promql.eval LookbackDelta fuel 0 ev (s :: series)
  = Panic (runtime_Error "makeslice: cap out of range")
  /\ promql.eval LookbackDelta (S fuel) 1 ev [s] = Return (value.OfMatrix [])
  /\ (forall pool, promql.eval LookbackDelta fuel pool ev []
                   = Return (value.OfMatrix [])).
Proof.
  intros Hstep Hrange Hgap.
  pose proof (numSteps_before_start ev Hstep Hrange Hgap) as Hneg.
  unfold promql.eval, promql.eval_from.
  rewrite (proj2 (Z.eqb_neq _ _)) by lia.
  split; [ | split ].
  - cbn [promql.eval_series promql.getPointSlice].
    rewrite (proj2 (Z.ltb_lt _ _) Hneg). reflexivity.
  - cbn [promql.eval_series promql.getPointSlice bind promql.eval_steps].
    rewrite (proj2 (Z.leb_gt _ _)) by lia. reflexivity.
  - intros pool. reflexivity.
Qed.

Lemma end_before_start_panics_witness :
  promql.eval promql.DefaultLookbackDelta 5 0
    {| promql.startTimestamp := 10;
       promql.endTimestamp := 0;
       promql.interval := 1;
       promql.maxSamples := 10;
       promql.currentSamples := 0 |}
    [Fixtures.series_of Fixtures.up [(5, Fixtures.one)]]
  = Panic (runtime_Error "makeslice: cap out of range").
Proof.
  refine (proj1 (end_before_start_panics promql.DefaultLookbackDelta 5
                   {| promql.startTimestamp := 10;
                      promql.endTimestamp := 0;
                      promql.interval := 1;
                      promql.maxSamples := 10;
                      promql.currentSamples := 0 |}
                   (Fixtures.series_of Fixtures.up [(5, Fixtures.one)]) [] _ _ _)).
  - simpl. lia.
  - vm_compute. split; discriminate.
  - simpl. lia.
Defined.

Lemma eval_steps_never_past_max LookbackDelta fuel :
  forall ev it ts pts r,
    promql.endTimestamp ev = Int64.max_int ->
    Int64.in_range ts ->
    promql.eval_steps LookbackDelta fuel ev it ts pts <> Return r.
Proof.
  induction fuel as [ | k IH ]; intros ev it ts pts r Hend Hts; [ discriminate | ].
  cbn [promql.eval_steps]. rewrite Hend.
  rewrite (proj2 (Z.leb_le _ _)) by (unfold Int64.in_range in Hts; lia).
  destruct (promql.vectorSelectorSingle LookbackDelta it ts)
    as [[[[t v] ok] it1] | e | ]; cbn [bind]; try discriminate.
  destruct ok.
  - destruct (promql.currentSamples ev <? promql.maxSamples ev); [ | discriminate ].
    apply IH; [ exact Hend | apply wrap_range ].
  - apply IH; [ exact Hend | apply wrap_range ].
Qed.

(** X17: a grid that ends at the largest [int64].  The loop test
    [ts <= ev.endTimestamp] then holds for every [ts], and [ts +=
    ev.interval] wraps around: with at least one series given, the
    evaluator never returns, whatever the step and however long it
    runs; it can only stop by a panic. *)
Theorem end_at_max_int_never_returns LookbackDelta fuel pool ev s series v :
  promql.endTimestamp ev = Int64.max_int ->
  Int64.in_range (promql.startTimestamp ev) ->
  promql.eval LookbackDelta fuel pool ev (s :: series) <> Return v.
Proof.
  intros Hend Hstart. unfold promql.eval, promql.eval_from.
  destruct (promql.interval ev =? 0); [ discriminate | ].
  cbn [promql.eval_series].
  destruct (promql.getPointSlice pool _) as [[pts pool'] | e | ]; cbn [bind];
    try discriminate.
  destruct (promql.eval_steps _ _ _ _ _ _) as [r | e | ] eqn:Hsteps; cbn [bind];
    try discriminate.
  exfalso. exact (eval_steps_never_past_max _ _ _ _ _ _ _ Hend Hstart Hsteps).
Qed.

Lemma end_at_max_int_never_returns_witness :
  promql.eval promql.DefaultLookbackDelta 50 0
    {| promql.startTimestamp := 0;
       promql.endTimestamp := 9223372036854775807;
       promql.interval := 4611686018427387904;
       promql.maxSamples := 10;
       promql.currentSamples := 0 |}
    [Fixtures.series_of Fixtures.up [(5, Fixtures.one)]]
  <> Return (value.OfMatrix []).
Proof.
  apply (end_at_max_int_never_returns promql.DefaultLookbackDelta 50 0
           {| promql.startTimestamp := 0;
              promql.endTimestamp := 9223372036854775807;
              promql.interval := 4611686018427387904;
              promql.maxSamples := 10;
              promql.currentSamples := 0 |}).
  - reflexivity.
  - vm_compute. split; discriminate.
Defined.

(** ** [promql]: a well-formed query runs to its end *)



